(** * KLT video stabiliser: [Tracker.process_image] and the compositing loop

    A shallow embedding of [src/KLT_stablize.py].  The imaging primitives of
    OpenCV and NumPy's matrix inverse are external to the repository; they
    are taken as parameters of the model, together with the part of their
    documented contract that the program relies on. *)

From Stdlib Require Import ZArith List Bool Lia.
From Stdlib Require Import Strings.Ascii Strings.String.
From Stdlib Require Import Floats.SpecFloat.
From stdpp Require Import base list.

Local Open Scope Z_scope.

(** ** Floating-point numbers of the program

    NumPy's [float32] and Python's [float] are IEEE 754 binary32 and
    binary64, round to nearest even.  Both are [spec_float] at the
    corresponding precision. *)

Module F64.
Definition prec : Z := 53.
Definition emax : Z := 1024.

Definition mul : spec_float -> spec_float -> spec_float := SFmul prec emax.

(** [float(n)] for a Python [int]. *)
Definition of_int (n : Z) : spec_float := binary_normalize prec emax n 0 false.

(** The literal [0.8], i.e. 0x3FE999999999999A. *)
Definition lit_0_8 : spec_float := S754_finite false 7205759403792794 (-53).

(** The literal [0.01], i.e. 0x3F847AE147AE147B. *)
Definition lit_0_01 : spec_float := S754_finite false 5764607523034235 (-59).

(** Python compares an [int] with a [float] by value, without rounding the
    integer: [n < x]. *)
Definition int_lt (n : Z) (x : spec_float) : bool :=
  match x with
  | S754_nan => false
  | S754_infinity s => negb s
  | S754_zero _ => n <? 0
  | S754_finite s m e =>
      let v := if s then Z.neg m else Z.pos m in
      match e with
      | Z.neg p => n * 2 ^ Z.pos p <? v
      | _ => n <? v * 2 ^ e
      end
  end.
End F64.

Module F32.
Definition prec : Z := 24.
Definition emax : Z := 128.

Definition add : spec_float -> spec_float -> spec_float := SFadd prec emax.
Definition mul : spec_float -> spec_float -> spec_float := SFmul prec emax.

Definition zero : spec_float := S754_zero false.
Definition one : spec_float := S754_finite false 8388608 (-23).

(** Neither an infinity nor a NaN. *)
Definition is_finite (x : spec_float) : bool :=
  match x with
  | S754_zero _ | S754_finite _ _ _ => true
  | _ => false
  end.

(** Storing a [float64] into a [float32] array: the value is rounded to
    the nearest [float32]; beyond the largest one it becomes an infinity. *)
Definition of_f64 (x : spec_float) : spec_float :=
  match x with
  | S754_finite s m e =>
      binary_normalize prec emax (if s then Z.neg m else Z.pos m) e s
  | _ => x
  end.

(** The fused multiply-add [x * y + z], rounded once. *)
Definition fma (x y z : spec_float) : spec_float :=
  match x, y with
  | S754_finite sx mx ex, S754_finite sy my ey =>
      match z with
      | S754_finite sz mz ez =>
          let e := Z.min (ex + ey) ez in
          let p :=
            cond_Zopp (xorb sx sy)
              (Z.pos (fst (shl_align (mx * my) (ex + ey) e))) in
          let a := cond_Zopp sz (Z.pos (fst (shl_align mz ez e))) in
          binary_normalize prec emax (p + a) e false
      | S754_zero _ => mul x y
      | _ => z
      end
  | _, _ => add (mul x y) z
  end.
End F32.

(** ** Matrices

    [rigid_transform] is a 3x3 [float32] array.  The estimator returns a
    2x3 [float64] array, which line 51 stores into the first two rows of a
    3x3 [float32] array. *)

Record vec3 := V3 { v0 : spec_float; v1 : spec_float; v2 : spec_float }.
Record mat3 := M3 { row0 : vec3; row1 : vec3; row2 : vec3 }.
Record mat23 := M23 { top0 : vec3; top1 : vec3 }.

(** [np.eye(3, dtype=np.float32)] *)
Definition eye3 : mat3 :=
  M3 (V3 F32.one F32.zero F32.zero)
     (V3 F32.zero F32.one F32.zero)
     (V3 F32.zero F32.zero F32.one).

Definition stored3 (r : vec3) : vec3 :=
  V3 (F32.of_f64 (v0 r)) (F32.of_f64 (v1 r)) (F32.of_f64 (v2 r)).

(** The estimate as it stands in the [float32] array. *)
Definition stored (t : mat23) : mat23 :=
  M23 (stored3 (top0 t)) (stored3 (top1 t)).

(** [t = np.eye(3, dtype=np.float32); t[:2] = transform_matrix] *)
Definition embed (t : mat23) : mat3 :=
  M3 (top0 (stored t)) (top1 (stored t)) (row2 eye3).

Definition col0 (m : mat3) : vec3 := V3 (v0 (row0 m)) (v0 (row1 m)) (v0 (row2 m)).
Definition col1 (m : mat3) : vec3 := V3 (v1 (row0 m)) (v1 (row1 m)) (v1 (row2 m)).
Definition col2 (m : mat3) : vec3 := V3 (v2 (row0 m)) (v2 (row1 m)) (v2 (row2 m)).

(** The inner product of a row and a column of [float32].  NumPy hands
    [@] on [float32] matrices to the [sgemm] routine of its BLAS, whose
    kernels accumulate it from zero with one fused multiply-add for each
    index in turn. *)
Definition dot (a b : vec3) : spec_float :=
  F32.fma (v2 a) (v2 b)
    (F32.fma (v1 a) (v1 b) (F32.fma (v0 a) (v0 b) F32.zero)).

Inductive index3 := I0 | I1 | I2.

Definition coord (v : vec3) (i : index3) : spec_float :=
  match i with I0 => v0 v | I1 => v1 v | I2 => v2 v end.

(** [m[i]], [m[:, j]] and [m[i, j]] *)
Definition row (m : mat3) (i : index3) : vec3 :=
  match i with I0 => row0 m | I1 => row1 m | I2 => row2 m end.


Definition entry (m : mat3) (i j : index3) : spec_float := coord (row m i) j.

Definition row_times (r : vec3) (b : mat3) : vec3 :=
  V3 (dot r (col0 b)) (dot r (col1 b)) (dot r (col2 b)).

(** [a @ b] *)
Definition matmul (a b : mat3) : mat3 :=
  M3 (row_times (row0 a) b) (row_times (row1 a) b) (row_times (row2 a) b).

(** [a[:2]] *)
Definition top_rows (a : mat3) : mat23 := M23 (row0 a) (row1 a).

Definition finite3 (r : vec3) : bool :=
  F32.is_finite (v0 r) && F32.is_finite (v1 r) && F32.is_finite (v2 r).

(** All six entries are finite numbers. *)
Definition finite23 (t : mat23) : bool := finite3 (top0 t) && finite3 (top1 t).

(** The bottom row of a homogeneous affine matrix, [0, 0, 1]. *)
Definition affine_bottom : vec3 := V3 F32.zero F32.zero F32.one.

(** ** Images and landmarks *)

(** A BGR pixel of a [uint8] colour raster. *)
Definition pixel : Type := Z * Z * Z.

(** Rasters are lists of rows; a landmark is a pair of [float32]
    coordinates. *)
Abbreviation image := (list (list pixel)).
Abbreviation gray_image := (list (list Z)).
Definition point : Type := spec_float * spec_float.

Definition len {A} (l : list A) : Z := Z.of_nat (length l).

(** [np.where(status.flatten() == 1)[0]] *)
Fixpoint where_eq_1_from (i : nat) (status : list Z) : list nat :=
  match status with
  | [] => []
  | s :: rest =>
      if s =? 1 then i :: where_eq_1_from (S i) rest
      else where_eq_1_from (S i) rest
  end.

Definition where_eq_1 (status : list Z) : list nat := where_eq_1_from 0 status.

(** [a[indices]] for an index array.  The indices the program uses come from
    a status array as long as [a], so they are in range. *)
Definition take_at {A} (a : list A) (indices : list nat) : list A :=
  omap (fun i => a !! i) indices.

(** [n < 0.8 * k] for two Python [int]s. *)
Definition below_80_percent (n k : Z) : bool :=
  F64.int_lt n (F64.mul F64.lit_0_8 (F64.of_int k)).

(** ** The tracker *)

Record Tracker := mkTracker {
  tracked_features : list point;
  prev_gray : option gray_image;
  fresh_start : bool;
  rigid_transform : mat3
}.

(** [Tracker.__init__] *)
Definition init : Tracker :=
  {| tracked_features := [];
     prev_gray := None;
     fresh_start := true;
     rigid_transform := eye3 |}.

(** Which way a call of [process_image] went after the detection stage. *)
Inductive tracking_path :=
  | Skipped
  | Reset
  | Tracked (increment : option mat23).

Record trace := mkTrace {
  detector_ran : bool;
  tracking : tracking_path
}.

Section Tracker.

(** [cv2.cvtColor(img, cv2.COLOR_BGR2GRAY)] *)
Variable cvtColor : image -> gray_image.

(** [cv2.goodFeaturesToTrack(gray, maxCorners, qualityLevel, minDistance)];
    [None] when no corner is found. *)
Variable goodFeaturesToTrack :
  gray_image -> Z -> spec_float -> Z -> option (list point).

(** [cv2.calcOpticalFlowPyrLK(prev, next, points, None)]: the new
    positions and the status bytes. *)
Variable calcOpticalFlowPyrLK :
  gray_image -> gray_image -> list point -> list point * list Z.

(** [cv2.estimateAffinePartial2D(old, new, method=cv2.RANSAC)]: the 2x3
    [float64] array it returns, [None] when it returns none.  Calls on
    which it raises are the subject of [process_image_or_raise] below. *)
Variable estimateAffinePartial2D : list point -> list point -> option mat23.

(** Lines 16-22: the detection stage.  The second component records
    whether the detector was called. *)
Definition detect (features : list point) (gray : gray_image)
  : list point * bool :=
  if len features <? 200 then
    match goodFeaturesToTrack gray 300 F64.lit_0_01 10 with
    | Some corners => (features ++ corners, true)
    | None => (features, true)
    end
  else (features, false).

(** Lines 26-36: tracking and filtering; the valid new positions and the
    old positions they come from. *)
Definition track (prev gray : gray_image) (features : list point)
  : list point * list point :=
  let '(new_features, status) := calcOpticalFlowPyrLK prev gray features in
  let valid_indices := where_eq_1 status in
  (take_at new_features valid_indices, take_at features valid_indices).

(** Lines 50-52 *)
Definition accumulate (cumulative : mat3) (transform_matrix : mat23) : mat3 :=
  matmul cumulative (embed transform_matrix).

Definition process_image_traced (self : Tracker) (img : image)
  : Tracker * trace :=
  let gray := cvtColor img in
  let '(features, ran) := detect (tracked_features self) gray in
  match prev_gray self, features with
  | Some prev, _ :: _ =>
      let '(new_features, old_features) := track prev gray features in
      if below_80_percent (len new_features) (len features) then
        ({| tracked_features := [];
            prev_gray := None;
            fresh_start := true;
            rigid_transform := eye3 |},
         mkTrace ran Reset)
      else
        let estimate := estimateAffinePartial2D old_features new_features in
        ({| tracked_features := new_features;
            prev_gray := Some gray;
            fresh_start := fresh_start self;
            rigid_transform :=
              match estimate with
              | Some transform_matrix =>
                  accumulate (rigid_transform self) transform_matrix
              | None => rigid_transform self
              end |},
         mkTrace ran (Tracked estimate))
  | _, _ =>
      ({| tracked_features := features;
          prev_gray := Some gray;
          fresh_start := fresh_start self;
          rigid_transform := rigid_transform self |},
       mkTrace ran Skipped)
  end.

Definition process_image (self : Tracker) (img : image) : Tracker :=
  fst (process_image_traced self img).

(** The tracker after a sequence of frames. *)
Definition run (self : Tracker) (frames : list image) : Tracker :=
  fold_left process_image frames self.

End Tracker.

(** ** When the estimator raises

    [cv2.estimateAffinePartial2D] can also raise [cv2.error]; line 48 is not
    inside a [try], so the exception leaves [process_image]. *)

Inductive cv2_error : Set := Cv2Error.

Section RaisingEstimator.

Variable cvtColor : image -> gray_image.
Variable goodFeaturesToTrack :
  gray_image -> Z -> spec_float -> Z -> option (list point).
Variable calcOpticalFlowPyrLK :
  gray_image -> gray_image -> list point -> list point * list Z.

(** The estimator with its third outcome: [inl] when it raises. *)
Variable estimateAffinePartial2D :
  list point -> list point -> cv2_error + option mat23.

(** [process_image] with line 48 able to raise.  The first component is the
    tracker as the call leaves it: when the estimator raises, the corners
    appended at line 22 are in the list and nothing else has changed.  The
    second component is what the estimator did, if the call got to it. *)
Definition process_image_or_raise (self : Tracker) (img : image)
  : Tracker * option (cv2_error + option mat23) :=
  let gray := cvtColor img in
  let '(features, ran) := detect goodFeaturesToTrack (tracked_features self) gray in
  match prev_gray self, features with
  | Some prev, _ :: _ =>
      let '(new_features, old_features) :=
        track calcOpticalFlowPyrLK prev gray features in
      if below_80_percent (len new_features) (len features) then
        ({| tracked_features := [];
            prev_gray := None;
            fresh_start := true;
            rigid_transform := eye3 |},
         None)
      else
        match estimateAffinePartial2D old_features new_features with
        | inl e =>
            ({| tracked_features := features;
                prev_gray := prev_gray self;
                fresh_start := fresh_start self;
                rigid_transform := rigid_transform self |},
             Some (inl e))
        | inr estimate =>
            ({| tracked_features := new_features;
                prev_gray := Some gray;
                fresh_start := fresh_start self;
                rigid_transform :=
                  match estimate with
                  | Some transform_matrix =>
                      accumulate (rigid_transform self) transform_matrix
                  | None => rigid_transform self
                  end |},
             Some (inr estimate))
        end
  | _, _ =>
      ({| tracked_features := features;
          prev_gray := Some gray;
          fresh_start := fresh_start self;
          rigid_transform := rigid_transform self |},
       None)
  end.

(** The exception that leaves the call, if any. *)
Definition raised_by (self : Tracker) (img : image) : option cv2_error :=
  match (process_image_or_raise self img).2 with
  | Some (inl e) => Some e
  | _ => None
  end.

(** The estimator as the rest of this file takes it, for the calls on
    which it returns. *)
Definition returning (old new : list point) : option mat23 :=
  match estimateAffinePartial2D old new with
  | inr estimate => estimate
  | inl _ => None
  end.

End RaisingEstimator.

(** ** The compositing loop of [main] *)

(** [(p == 0).all()] for one pixel. *)
Definition is_black (p : pixel) : bool :=
  let '(b, g, r) := p in (b =? 0) && (g =? 0) && (r =? 0).

(** Lines 107-108: [mask = (stabilized == 0).all(axis=2)] and
    [stabilized[mask] = last[mask]], on two rasters of one shape. *)
Definition hole_fill (stabilized last : image) : image :=
  zip_with (zip_with (fun p q => if is_black p then q else p)) stabilized last.

(** The pixel at row [i], column [j]. *)
Definition pixel_at (img : image) (i j : nat) : option pixel :=
  img !! i ≫= fun row => row !! j.

Record Main := mkMain {
  tracker : Tracker;
  last_valid_frame : option image;
  out_with_points : list image;
  out_without_points : list image
}.

Definition main_start : Main :=
  {| tracker := init;
     last_valid_frame := None;
     out_with_points := [];
     out_without_points := [] |}.

(** How the loop ends: the stream is exhausted or ESC is pressed, or
    [np.linalg.inv] raises; nothing in [main] catches the exception. *)
Inductive outcome :=
  | Finished (final : Main)
  | LinAlgError (written : Main).

Section Main.

Variable cvtColor : image -> gray_image.
Variable goodFeaturesToTrack :
  gray_image -> Z -> spec_float -> Z -> option (list point).
Variable calcOpticalFlowPyrLK :
  gray_image -> gray_image -> list point -> list point * list Z.
Variable estimateAffinePartial2D : list point -> list point -> option mat23.

(** [np.linalg.inv]; [None] when it raises [LinAlgError] (singular
    matrix). *)
Variable inv : mat3 -> option mat3.

(** [cv2.warpAffine(frame, M, (width, height), flags=cv2.INTER_LINEAR,
    borderMode=cv2.BORDER_CONSTANT, borderValue=(0, 0, 0))] *)
Variable warpAffine : image -> mat23 -> Z -> Z -> image.

(** [cv2.circle(img, tuple(map(int, pt)), 2, (0, 0, 255), -1)] *)
Variable circle : image -> point -> image.

Variables frame_width frame_height : Z.

(** Lines 113-115 *)
Definition draw_points (img : image) (points : list point) : image :=
  fold_left circle points img.

(** One pass through the body of the loop, lines 91-122; [None] when the
    inversion raises. *)
Definition iteration (m : Main) (frame : image) : option Main :=
  let tracker' :=
    process_image cvtColor goodFeaturesToTrack calcOpticalFlowPyrLK
      estimateAffinePartial2D (tracker m) frame in
  match inv (rigid_transform tracker') with
  | None => None
  | Some inv_transform =>
      let warped :=
        warpAffine frame (top_rows inv_transform) frame_width frame_height in
      let stabilized_frame :=
        match last_valid_frame m with
        | Some last => hole_fill warped last
        | None => warped
        end in
      let frame_with_points :=
        draw_points stabilized_frame (tracked_features tracker') in
      Some {| tracker := tracker';
              last_valid_frame := Some stabilized_frame;
              out_with_points := out_with_points m ++ [frame_with_points];
              out_without_points := out_without_points m ++ [stabilized_frame] |}
  end.

(** Lines 86-127.  The input is what [cap.read()] delivers, each frame with
    the key [cv2.waitKey(30)] returns after it has been shown. *)
Fixpoint main_loop (m : Main) (frames : list (image * Z)) : outcome :=
  match frames with
  | [] => Finished m
  | (frame, key) :: rest =>
      match iteration m frame with
      | None => LinAlgError m
      | Some m' =>
          if Z.land key 255 =? 27 then Finished m' else main_loop m' rest
      end
  end.

Definition main (frames : list (image * Z)) : outcome :=
  main_loop main_start frames.

End Main.

(** ** Executable stand-ins for the imaging primitives

    Small total functions with the signatures of the external primitives,
    used to run the model on concrete streams.  A frame scripts what the
    stand-ins see: row 0 of its grey raster holds the status bytes of the
    optical flow, every non-zero entry [v] of row 1 is a corner at [(v, 0)],
    and row 2 holds the shift [dx, dy] of the scene. *)

Module Demo.

Definition f32 (n : Z) : spec_float :=
  binary_normalize F32.prec F32.emax n 0 false.

Definition sub : spec_float -> spec_float -> spec_float :=
  SFsub F32.prec F32.emax.
Definition div : spec_float -> spec_float -> spec_float :=
  SFdiv F32.prec F32.emax.

Definition cvtColor (img : image) : gray_image :=
  map (map (fun p : pixel => p.1.1)) img.

Definition gray_row (gray : gray_image) (i : nat) : list Z :=
  default [] (gray !! i).

Definition goodFeaturesToTrack (gray : gray_image) (maxCorners : Z)
    (qualityLevel : spec_float) (minDistance : Z) : option (list point) :=
  let corners :=
    map (fun v => (f32 v, f32 0))
        (filter (fun v => v ≠ 0) (gray_row gray 1)) in
  match take (Z.to_nat maxCorners) corners with
  | [] => None
  | found => Some found
  end.

Definition calcOpticalFlowPyrLK (prev gray : gray_image)
    (points : list point) : list point * list Z :=
  let dx := f32 (default 0 (gray_row gray 2 !! 0%nat)) in
  let dy := f32 (default 0 (gray_row gray 2 !! 1%nat)) in
  (map (fun p : point => (F32.add p.1 dx, F32.add p.2 dy)) points,
   take (length points) (gray_row gray 0 ++ replicate (length points) 1)).

(** The translation that carries the first old point to the first new one,
    when there are two correspondences at least. *)
Definition estimateAffinePartial2D (old new : list point) : option mat23 :=
  match old, new with
  | o :: _ :: _, n :: _ :: _ =>
      let t := M23 (V3 F32.one F32.zero (sub n.1 o.1))
                   (V3 F32.zero F32.one (sub n.2 o.2)) in
      if finite23 t then Some t else None
  | _, _ => None
  end.

(** An estimator for a scene in which all landmarks fall onto the origin:
    the fitted similarity has scale zero. *)
Definition collapsed (old new : list point) : option mat23 :=
  Some (M23 (V3 F32.zero F32.zero F32.zero) (V3 F32.zero F32.zero F32.zero)).

Definition det2 (a b c d : spec_float) : spec_float :=
  sub (F32.mul a d) (F32.mul b c).

(** Inversion by cofactors; raises on a zero determinant. *)
Definition inv (m : mat3) : option mat3 :=
  let '(M3 (V3 a b c) (V3 d e f) (V3 g h i)) := m in
  let det :=
    F32.add (sub (F32.mul a (det2 e f h i)) (F32.mul b (det2 d f g i)))
            (F32.mul c (det2 d e g h)) in
  if SFeqb det F32.zero then None
  else Some (M3 (V3 (div (det2 e f h i) det) (div (det2 c b i h) det)
                    (div (det2 b c e f) det))
                (V3 (div (det2 f d i g) det) (div (det2 a c g i) det)
                    (div (det2 c a f d) det))
                (V3 (div (det2 d e g h) det) (div (det2 b a h g) det)
                    (div (det2 a b d e) det))).

Definition black : pixel := (0, 0, 0).

(** Puts the frame at the origin of a black canvas of the requested size;
    the matrix is not consulted. *)
Definition warpAffine (frame : image) (M : mat23) (width height : Z)
  : image :=
  let w := Z.to_nat width in
  let fit (row : list pixel) := take w (row ++ replicate w black) in
  take (Z.to_nat height)
       (map fit frame ++ replicate (Z.to_nat height) (replicate w black)).

(** Paints the first row red. *)
Definition circle (img : image) (pt : point) : image :=
  match img with
  | [] => []
  | row :: rest => map (fun _ => (0, 0, 255)) row :: rest
  end.

(** A colour frame whose grey raster is [rows]. *)
Definition frame (rows : gray_image) : image :=
  map (map (fun v => (v, v, v))) rows.

Definition process_image : Tracker -> image -> Tracker :=
  process_image cvtColor goodFeaturesToTrack calcOpticalFlowPyrLK
    estimateAffinePartial2D.

Definition process_image_traced : Tracker -> image -> Tracker * trace :=
  process_image_traced cvtColor goodFeaturesToTrack calcOpticalFlowPyrLK
    estimateAffinePartial2D.

Definition iteration : Main -> image -> option Main :=
  iteration cvtColor goodFeaturesToTrack calcOpticalFlowPyrLK
    estimateAffinePartial2D inv warpAffine circle 4 3.



(** An estimator that answers from a list: the first entry while ten
    landmarks are tracked, the next when nine are, and so on. *)
Definition scripted (answers : list mat23) (old new : list point)
  : option mat23 :=
  answers !! (10 - length new)%nat.

(** [float64] matrices with whole entries. *)
Definition whole (a b c d e f : Z) : mat23 :=
  M23 (V3 (F64.of_int a) (F64.of_int b) (F64.of_int c))
      (V3 (F64.of_int d) (F64.of_int e) (F64.of_int f)).

(** The [float32] matrix with whole entries. *)
Definition whole3 (a b c d e f : Z) : mat3 :=
  M3 (V3 (f32 a) (f32 b) (f32 c)) (V3 (f32 d) (f32 e) (f32 f))
     (V3 (f32 0) (f32 0) (f32 1)).


(** A finite [float64] estimate whose first entry, 2^128, is beyond the
    largest [float32]. *)
Definition too_large : mat23 :=
  M23 (V3 (S754_finite false 4503599627370496 76) (F64.of_int 0) (F64.of_int 0))
      (V3 (F64.of_int 0) (F64.of_int 1) (F64.of_int 0)).

(** *** Streams *)

(** Five corners in the first frame, then a frame that loses two of them,
    or one that loses one while the scene moves 3 px to the right, followed
    by a frame that moves 2 px down. *)
Definition five_corners : image := frame [[]; [10; 20; 30; 40; 50]; [0; 0]].
Definition tracking_five : Tracker := process_image init five_corners.
Definition loses_two : image := frame [[1; 1; 1; 0; 0]; []; [3; 0]].
Definition loses_one : image := frame [[1; 1; 1; 1; 0]; []; [3; 0]].
Definition moves_down : image := frame [[1; 1; 1; 1]; []; [0; 2]].

(** Ten corners, then frames on which ten, nine and eight landmarks are
    tracked. *)
Definition ten_corners : image :=
  frame [[]; [10; 20; 30; 40; 50; 60; 70; 80; 90; 100]; [0; 0]].
Definition keeps_ten : image :=
  frame [[1; 1; 1; 1; 1; 1; 1; 1; 1; 1]; []; [0; 0]].
Definition keeps_nine : image :=
  frame [[1; 1; 1; 1; 1; 1; 1; 1; 1; 0]; []; [0; 0]].
Definition keeps_eight : image :=
  frame [[1; 1; 1; 1; 1; 1; 1; 1; 0]; []; [0; 0]].


(** Six corners, then four of them tracked. *)
Definition six_corners : image := frame [[]; [10; 20; 30; 40; 50; 60]; [0; 0]].
Definition tracking_six : Tracker := process_image init six_corners.
Definition four_of_six : image := frame [[1; 1; 1; 1; 0; 0]; []; [0; 0]].


(** Two 4x3 frames for the compositor.  The second has black pixels of its
    own in the middle row and is a column short of the canvas. *)
Definition bright : image :=
  frame [[9; 9; 9; 9]; [10; 20; 30; 40]; [5; 5; 5; 5]].
Definition dark_spots : image :=
  frame [[1; 1; 1]; [7; 0; 0]; [0; 0; 8]].
Definition after_bright : Main := default main_start (iteration main_start bright).
Definition after_dark_spots : Main :=
  default after_bright (iteration after_bright dark_spots).

(** The loop with the estimator of the collapsing scene, on three frames. *)
Definition main_loop_collapsing : Main -> list (image * Z) -> outcome :=
  main_loop cvtColor goodFeaturesToTrack calcOpticalFlowPyrLK collapsed
    inv warpAffine circle 4 3.
Definition three_frames : list (image * Z) :=
  [(bright, 0); (dark_spots, 0); (bright, 0)].

End Demo.

(** ** The names of the output files

    Lines 64-65 of [main]: both names come from the input path by
    [str.replace]. *)

(** [s.replace(old, new)] for a non-empty [old]: occurrences are replaced
    from left to right and do not overlap.  [skip] counts the characters of
    an occurrence that are still to be passed over. *)
Fixpoint replace_skipping (skip : nat) (old new s : string) : string :=
  match s with
  | EmptyString => EmptyString
  | String c rest =>
      match skip with
      | S k => replace_skipping k old new rest
      | O =>
          if String.prefix old s
          then String.append new
                 (replace_skipping (Nat.pred (String.length old)) old new rest)
          else String c (replace_skipping 0 old new rest)
      end
  end.

Definition str_replace (s old new : string) : string :=
  replace_skipping 0 old new s.

(** [old in s] *)
Fixpoint contains (old s : string) : bool :=
  match s with
  | EmptyString => String.prefix old s
  | String _ rest => String.prefix old s || contains old rest
  end.

Definition output_with_points (video_path : string) : string :=
  str_replace video_path ".mp4" "_with_points.mp4".

Definition output_without_points (video_path : string) : string :=
  str_replace video_path ".mp4" "_without_points.mp4".

(** ** Rasters without black pixels *)

Definition no_black (img : image) : bool :=
  forallb (forallb (fun p => negb (is_black p))) img.

(** A raster of [height] rows of [width] pixels. *)
Definition has_shape (height width : nat) (img : image) : Prop :=
  length img = height /\ Forall (fun row => length row = width) img.

(** ** What the loop leaves behind *)

(** The state of [main] when the loop has ended, either way. *)
Definition state_of (o : outcome) : Main :=
  match o with
  | Finished final => final
  | LinAlgError written => written
  end.

Definition raised (o : outcome) : bool :=
  match o with
  | Finished _ => false
  | LinAlgError _ => true
  end.

(** Everything but the stream with points. *)
Definition without_overlay (m : Main) : Tracker * option image * list image :=
  (tracker m, last_valid_frame m, out_without_points m).

(** A stabilized output has been kept and it has no black pixel. *)
Definition kept_no_black (m : Main) : Prop :=
  match last_valid_frame m with
  | Some last => no_black last = true
  | None => False
  end.

(** ** The reference-image stabiliser, [src/SIFT_stabilize.py]

    The sibling program aligns every frame with one reference image.  Its
    loop shares the hole-fill with [main] above. *)

Module Sift.

(** [cv2.DMatch]: the two indices and the distance, a Python [float]. *)
Record DMatch := mkDMatch {
  queryIdx : Z;
  trainIdx : Z;
  distance : spec_float
}.

(** The exceptions that nothing in the program catches. *)
Inductive exception := ValueError | IndexError.

(** The literal [0.7], i.e. 0x3FE6666666666666. *)
Definition lit_0_7 : spec_float := S754_finite false 6305039478318694 (-53).

(** [seq[i]] for a Python [int]: negative indices count from the end. *)
Definition py_index {A} (l : list A) (i : Z) : exception + A :=
  let n := len l in
  let j := if i <? 0 then i + n else i in
  if (0 <=? j) && (j <? n) then
    match l !! Z.to_nat j with
    | Some x => inr x
    | None => inl IndexError
    end
  else inl IndexError.

(** [[m for m, n in matches if m.distance < 0.7 * n.distance]]: unpacking
    an entry that is not a pair raises [ValueError]. *)
Fixpoint good_matches (matches : list (list DMatch))
  : exception + list DMatch :=
  match matches with
  | [] => inr []
  | [m; n] :: rest =>
      match good_matches rest with
      | inl e => inl e
      | inr good =>
          if SFltb (distance m) (F64.mul lit_0_7 (distance n))
          then inr (m :: good) else inr good
      end
  | _ :: _ => inl ValueError
  end.

(** [[kp[f(m)].pt for m in good]] *)
Fixpoint points_of (kp : list point) (f : DMatch -> Z) (good : list DMatch)
  : exception + list point :=
  match good with
  | [] => inr []
  | m :: rest =>
      match py_index kp (f m) with
      | inl e => inl e
      | inr pt =>
          match points_of kp f rest with
          | inl e => inl e
          | inr pts => inr (pt :: pts)
          end
      end
  end.

Record State := mkState {
  last_valid_frame : option image;
  written : list (string * image)
}.

Definition start : State := {| last_valid_frame := None; written := [] |}.

(** How the loop ends: normally, or with an exception out of
    [process_frame]. *)
Inductive outcome :=
  | Done (final : State)
  | Raised (e : exception) (so_far : State).

Definition state_of (o : outcome) : State :=
  match o with
  | Done final => final
  | Raised _ so_far => so_far
  end.

Section Program.

(** The descriptor arrays of SIFT. *)
Variable descriptors : Type.

Variable cvtColor : image -> gray_image.

(** [sift.detectAndCompute(gray, None)]: the positions of the key points
    and the descriptors, [None] when there is no key point. *)
Variable detectAndCompute : gray_image -> list point * option descriptors.

(** [flann.knnMatch(ref_des, des_frame, k=2)]; [None] when it raises
    [cv2.error]. *)
Variable knnMatch : descriptors -> descriptors -> Z -> option (list (list DMatch)).

(** [cv2.findHomography(src, dst, cv2.RANSAC, 5.0)]; [None] when no
    homography is found. *)
Variable findHomography : list point -> list point -> option mat3.

(** [np.linalg.inv]; [None] when it raises [LinAlgError]. *)
Variable inv : mat3 -> option mat3.

(** [cv2.warpPerspective(frame, M, (width, height), ...)] *)
Variable warpPerspective : image -> mat3 -> Z -> Z -> image.

(** Lines 5-57.  [inr None] is the result [None]. *)
Definition process_frame (frame ref_image : image) (ref_kp : list point)
    (ref_des : descriptors) : exception + option image :=
  let gray_frame := cvtColor frame in
  let '(kp_frame, des_frame) := detectAndCompute gray_frame in
  match des_frame with
  | None => inr None
  | Some des_frame =>
      match knnMatch ref_des des_frame 2 with
      | None => inr None
      | Some matches =>
          match good_matches matches with
          | inl e => inl e
          | inr good =>
              if len good <? 10 then inr None
              else
                match points_of ref_kp queryIdx good with
                | inl e => inl e
                | inr src_pts =>
                    match points_of kp_frame trainIdx good with
                    | inl e => inl e
                    | inr dst_pts =>
                        match findHomography src_pts dst_pts with
                        | None => inr None
                        | Some H =>
                            match inv H with
                            | None => inr None
                            | Some H_inv =>
                                let ref_h := len ref_image in
                                let ref_w := len (default [] (head ref_image)) in
                                inr (Some (warpPerspective frame H_inv ref_w ref_h))
                            end
                        end
                    end
                end
          end
      end
  end.

Variable ref_image : image.
Variable ref_kp : list point.
Variable ref_des : descriptors.

(** Lines 86-116.  Each entry is a file name, what [cv2.imread] returns for
    it ([None] when the file cannot be read) and the key [cv2.waitKey(30)]
    returns if the frame gets as far as being shown. *)
Fixpoint main_loop (st : State) (frame_files : list (string * option image * Z))
  : outcome :=
  match frame_files with
  | [] => Done st
  | (fname, loaded, key) :: rest =>
      match loaded with
      | None => main_loop st rest
      | Some frame =>
          match process_frame frame ref_image ref_kp ref_des with
          | inl e => Raised e st
          | inr None => main_loop st rest
          | inr (Some warped) =>
              let stabilized :=
                match last_valid_frame st with
                | Some last => hole_fill warped last
                | None => warped
                end in
              let st' :=
                {| last_valid_frame := Some stabilized;
                   written := written st ++ [(fname, stabilized)] |} in
              if Z.land key 255 =? 27 then Done st' else main_loop st' rest
          end
      end
  end.

(** Whether a frame file gets written: it loads and [process_frame] returns
    a raster or raises. *)
Definition counts (entry : string * option image * Z) : bool :=
  match entry.1.2 with
  | None => false
  | Some frame =>
      match process_frame frame ref_image ref_kp ref_des with
      | inr None => false
      | _ => true
      end
  end.

End Program.

End Sift.

(** ** Executable stand-ins for the primitives of the reference-image
    stabiliser

    Row 0 of a frame's grey raster holds the x coordinates of its key
    points; every further row [q, t, d1, d2] is one descriptor, matched to
    the reference key point [q] and the frame key point [t] at distances
    [d1] and [d2]. *)

Module SiftDemo.

(** The number of key points and one row per descriptor. *)
Definition descriptors : Type := nat * list (list Z).

Definition key_points (gray : gray_image) : list point :=
  map (fun v => (Demo.f32 v, Demo.f32 0)) (Demo.gray_row gray 0).

Definition detectAndCompute (gray : gray_image)
  : list point * option descriptors :=
  (key_points gray,
   match drop 1 gray with
   | [] => None
   | rows => Some (length (key_points gray), rows)
   end).

Definition clamp (n : nat) (i : Z) : Z := Z.max 0 (Z.min i (Z.of_nat n - 1)).

Definition entry (nq nt : nat) (row : list Z) : list Sift.DMatch :=
  let q := clamp nq (default 0 (row !! 0%nat)) in
  let t := clamp nt (default 0 (row !! 1%nat)) in
  [Sift.mkDMatch q t (F64.of_int (default 0 (row !! 2%nat)));
   Sift.mkDMatch q t (F64.of_int (default 0 (row !! 3%nat)))].

(** Raises when either side has no key point. *)
Definition knnMatch (ref des : descriptors) (k : Z)
  : option (list (list Sift.DMatch)) :=
  if (ref.1 =? 0)%nat || (des.1 =? 0)%nat then None
  else Some (map (entry ref.1 des.1) des.2).

(** A matcher that finds one neighbour only. *)
Definition knnMatch_one_neighbour (ref des : descriptors) (k : Z)
  : option (list (list Sift.DMatch)) :=
  Some (map (fun _ => [Sift.mkDMatch 0 0 (F64.of_int 1)]) des.2).

(** The identity when the first points agree, else a map onto the
    origin. *)
Definition findHomography (src dst : list point) : option mat3 :=
  match src, dst with
  | s :: _, d :: _ =>
      if SFeqb s.1 d.1 then Some eye3
      else Some (M3 (V3 F32.zero F32.zero F32.zero)
                    (V3 F32.zero F32.zero F32.zero) affine_bottom)
  | _, _ => None
  end.

Definition warpPerspective (frame : image) (M : mat3) (width height : Z)
  : image :=
  Demo.warpAffine frame (top_rows M) width height.

Definition ref_image : image := Demo.bright.
Definition ref_kp : list point := key_points [seqZ 0 10].
Definition ref_des : descriptors := (length ref_kp, [[0]]).

Definition rows : list (list Z) := map (fun i => [i; i; 1; 2]) (seqZ 0 10).

(** Ten good matches onto the reference; the same with the first key point
    moved; three matches only. *)
Definition aligned : image := Demo.frame (seqZ 0 10 :: rows).
Definition shifted : image := Demo.frame ((5 :: seqZ 1 9) :: rows).
Definition few : image := Demo.frame (seqZ 0 10 :: take 3 rows).

Definition process_frame (frame : image) : Sift.exception + option image :=
  Sift.process_frame descriptors Demo.cvtColor detectAndCompute knnMatch
    findHomography Demo.inv warpPerspective frame ref_image ref_kp ref_des.

Definition main_loop
  : Sift.State -> list (string * option image * Z) -> Sift.outcome :=
  Sift.main_loop descriptors Demo.cvtColor detectAndCompute knnMatch
    findHomography Demo.inv warpPerspective ref_image ref_kp ref_des.

Definition main_loop_one_neighbour
  : Sift.State -> list (string * option image * Z) -> Sift.outcome :=
  Sift.main_loop descriptors Demo.cvtColor detectAndCompute
    knnMatch_one_neighbour findHomography Demo.inv warpPerspective
    ref_image ref_kp ref_des.

Definition files : list (string * option image * Z) :=
  [("a.png"%string, Some aligned, 0); ("b.png"%string, None, 0);
   ("c.png"%string, Some shifted, 0); ("d.png"%string, Some few, 0);
   ("e.png"%string, Some aligned, 0)].

(** What the primitives return on [aligned] and on [shifted]. *)
Definition des_of (frame : image) : descriptors :=
  default (0%nat, []) (detectAndCompute (Demo.cvtColor frame)).2.
Definition matches_of (frame : image) : list (list Sift.DMatch) :=
  default [] (knnMatch ref_des (des_of frame) 2).
Definition good_of (frame : image) : list Sift.DMatch :=
  match Sift.good_matches (matches_of frame) with
  | inr good => good
  | inl _ => []
  end.
Definition src_of (frame : image) : list point :=
  match Sift.points_of ref_kp Sift.queryIdx (good_of frame) with
  | inr pts => pts
  | inl _ => []
  end.
Definition dst_of (frame : image) : list point :=
  match Sift.points_of (detectAndCompute (Demo.cvtColor frame)).1
          Sift.trainIdx (good_of frame) with
  | inr pts => pts
  | inl _ => []
  end.

End SiftDemo.

(** ** The 80% threshold in integer arithmetic *)

(** The double [0.8 * k] lies in [(c - 1, c]] for [c = ceil(4k/5)]. *)
Definition threshold_ok (k : Z) : bool :=
  let c := (4 * k + 4) / 5 in
  match F64.mul F64.lit_0_8 (F64.of_int k) with
  | S754_zero _ => k =? 0
  | S754_finite false m (Z.neg p) =>
      ((c - 1) * 2 ^ Z.pos p <? Z.pos m) && (Z.pos m <=? c * 2 ^ Z.pos p)
  | S754_finite false m e =>
      (c - 1 <? Z.pos m * 2 ^ e) && (Z.pos m * 2 ^ e <=? c)
  | _ => false
  end.

Lemma threshold_ok_spec (k n : Z) :
  threshold_ok k = true -> below_80_percent n k = (5 * n <? 4 * k).
Proof.
  unfold threshold_ok, below_80_percent.
  set (c := (4 * k + 4) / 5).
  assert (Hc : 5 * (c - 1) < 4 * k <= 5 * c).
  { subst c. Z.to_euclidean_division_equations. lia. }
  destruct (F64.mul _ _) as [s | s | | [] m e]; simpl; try discriminate.
  - intros Hk. apply Z.eqb_eq in Hk. subst k.
    destruct (Z.ltb_spec n 0), (Z.ltb_spec (5 * n) (4 * 0)); lia.
  - destruct e as [| p | p]; rewrite andb_true_iff, Z.ltb_lt, Z.leb_le.
    + rewrite Z.mul_1_r. intros [Hlo Hhi].
      destruct (Z.ltb_spec n (Z.pos m)), (Z.ltb_spec (5 * n) (4 * k)); lia.
    + assert (0 < 2 ^ Z.pos p) by (apply Z.pow_pos_nonneg; lia).
      set (P := 2 ^ Z.pos p) in *. intros [Hlo Hhi].
      destruct (Z.ltb_spec n (Z.pos m * P)), (Z.ltb_spec (5 * n) (4 * k));
        try reflexivity; exfalso.
      * assert (c <= n) by lia. lia.
      * assert (n <= c - 1) by lia. lia.
    + assert (0 < 2 ^ Z.pos p) by (apply Z.pow_pos_nonneg; lia).
      set (P := 2 ^ Z.pos p) in *. intros [Hlo Hhi].
      destruct (Z.ltb_spec (n * P) (Z.pos m)), (Z.ltb_spec (5 * n) (4 * k));
        try reflexivity; exfalso.
      * assert (c <= n) by lia. nia.
      * assert (n <= c - 1) by lia. nia.
Qed.

Lemma threshold_ok_range (k : Z) : 0 <= k <= 499 -> threshold_ok k = true.
Proof.
  intros Hk.
  assert (Hall : forallb threshold_ok (map Z.of_nat (seq 0 500)) = true)
    by (vm_compute; reflexivity).
  rewrite forallb_forall in Hall. apply Hall.
  apply in_map_iff. exists (Z.to_nat k). split; [lia |].
  apply in_seq. lia.
Qed.

(** For every landmark count the tracker can hold, the comparison
    [n < 0.8 * k] in doubles decides [5 n < 4 k]. *)
Lemma below_80_percent_spec (n k : Z) :
  0 <= k <= 499 -> below_80_percent n k = (5 * n <? 4 * k).
Proof. intros Hk. apply threshold_ok_spec, threshold_ok_range, Hk. Qed.

(** ** Lists of indices *)

Lemma where_eq_1_from_length (i : nat) (status : list Z) :
  (length (where_eq_1_from i status) <= length status)%nat.
Proof.
  revert i. induction status as [| s rest IH]; intros i; simpl.
  - lia.
  - destruct (s =? 1); simpl; specialize (IH (S i)); lia.
Qed.

Lemma take_at_length {A} (a : list A) (indices : list nat) :
  (length (take_at a indices) <= length indices)%nat.
Proof.
  unfold take_at. induction indices as [| i rest IH]; csimpl.
  - lia.
  - destruct (a !! i); csimpl; lia.
Qed.

(** ** Arithmetic on the bottom row *)

Lemma fma_zero_finite (x : spec_float) :
  F32.is_finite x = true -> F32.fma F32.zero x F32.zero = F32.zero.
Proof. destruct x as [[] | | | [] m e]; simpl; intros H; try discriminate; reflexivity. Qed.

Lemma fma_one_zero : F32.fma F32.one F32.zero F32.zero = F32.zero.
Proof. reflexivity. Qed.

Lemma fma_one_one : F32.fma F32.one F32.one F32.zero = F32.one.
Proof. vm_compute. reflexivity. Qed.

Lemma dot_bottom_zero (a b : spec_float) :
  F32.is_finite a = true -> F32.is_finite b = true ->
  dot affine_bottom (V3 a b F32.zero) = F32.zero.
Proof.
  intros Ha Hb. unfold dot, affine_bottom. cbn [v0 v1 v2].
  rewrite (fma_zero_finite a Ha), (fma_zero_finite b Hb). apply fma_one_zero.
Qed.

Lemma dot_bottom_one (a b : spec_float) :
  F32.is_finite a = true -> F32.is_finite b = true ->
  dot affine_bottom (V3 a b F32.one) = F32.one.
Proof.
  intros Ha Hb. unfold dot, affine_bottom. cbn [v0 v1 v2].
  rewrite (fma_zero_finite a Ha), (fma_zero_finite b Hb). apply fma_one_one.
Qed.

(** The product of a matrix with bottom row [0, 0, 1] and an embedded
    increment that is finite in [float32] has bottom row [0, 0, 1],
    exactly. *)
Lemma accumulate_bottom_row (cumulative : mat3) (t : mat23) :
  finite23 (stored t) = true ->
  row2 cumulative = affine_bottom ->
  row2 (accumulate cumulative t) = affine_bottom.
Proof.
  intros Hfin Hrow. unfold accumulate, matmul, row_times. cbn [row2].
  rewrite Hrow. unfold finite23, finite3 in Hfin. unfold embed.
  destruct (stored t) as [[a b c] [d e f]]. cbn in Hfin.
  rewrite !andb_true_iff in Hfin. destruct Hfin as [[[? ?] ?] [[? ?] ?]].
  unfold col0, col1, col2, eye3. cbn [row0 row1 row2 v0 v1 v2 top0 top1].
  rewrite !dot_bottom_zero, dot_bottom_one by assumption. reflexivity.
Qed.


(** ** Properties of [Tracker.process_image] *)

Section TrackerProperties.

Variable cvtColor : image -> gray_image.
Variable goodFeaturesToTrack :
  gray_image -> Z -> spec_float -> Z -> option (list point).
Variable calcOpticalFlowPyrLK :
  gray_image -> gray_image -> list point -> list point * list Z.
Variable estimateAffinePartial2D : list point -> list point -> option mat23.

(** What the program relies on from the documentation of the primitives:
    the detector returns at most [maxCorners] corners and the optical flow
    returns one status byte per input point. *)
Hypothesis goodFeaturesToTrack_max :
  forall gray maxCorners qualityLevel minDistance corners,
    goodFeaturesToTrack gray maxCorners qualityLevel minDistance = Some corners ->
    len corners <= maxCorners.
Hypothesis calcOpticalFlowPyrLK_status :
  forall prev gray points,
    length (calcOpticalFlowPyrLK prev gray points).2 = length points.

Local Abbreviation detect' := (detect goodFeaturesToTrack).
Local Abbreviation track' := (track calcOpticalFlowPyrLK).
Local Abbreviation process_image_traced' :=
  (process_image_traced cvtColor goodFeaturesToTrack calcOpticalFlowPyrLK
     estimateAffinePartial2D).
Local Abbreviation process_image' :=
  (process_image cvtColor goodFeaturesToTrack calcOpticalFlowPyrLK
     estimateAffinePartial2D).
Local Abbreviation run' :=
  (run cvtColor goodFeaturesToTrack calcOpticalFlowPyrLK
     estimateAffinePartial2D).

(** *** The three ways through [process_image] *)

Lemma process_image_skipped (self : Tracker) (img : image) :
  let gray := cvtColor img in
  let features := (detect' (tracked_features self) gray).1 in
  prev_gray self = None \/ features = [] ->
  process_image_traced' self img =
    ({| tracked_features := features;
        prev_gray := Some gray;
        fresh_start := fresh_start self;
        rigid_transform := rigid_transform self |},
     mkTrace (detect' (tracked_features self) gray).2 Skipped).
Proof.
  intros gray features H. subst gray features.
  unfold process_image_traced.
  destruct (detect' _ _) as [features ran]. simpl in *.
  destruct (prev_gray self); destruct features; try reflexivity;
    destruct H; discriminate.
Qed.

Lemma process_image_reset (self : Tracker) (img : image) (prev : gray_image) :
  let gray := cvtColor img in
  let features := (detect' (tracked_features self) gray).1 in
  prev_gray self = Some prev ->
  features <> [] ->
  below_80_percent (len (track' prev gray features).1) (len features) = true ->
  process_image_traced' self img =
    (init, mkTrace (detect' (tracked_features self) gray).2 Reset).
Proof.
  intros gray features Hprev Hne. subst gray features.
  unfold process_image_traced.
  destruct (detect' _ _) as [features ran]. simpl in *. rewrite Hprev.
  destruct features as [| p rest]; [congruence |].
  destruct (track' _ _ _) as [new_features old_features]. simpl.
  intros ->. reflexivity.
Qed.

Lemma process_image_tracked (self : Tracker) (img : image) (prev : gray_image) :
  let gray := cvtColor img in
  let features := (detect' (tracked_features self) gray).1 in
  let new_features := (track' prev gray features).1 in
  let old_features := (track' prev gray features).2 in
  let estimate := estimateAffinePartial2D old_features new_features in
  prev_gray self = Some prev ->
  features <> [] ->
  below_80_percent (len new_features) (len features) = false ->
  process_image_traced' self img =
    ({| tracked_features := new_features;
        prev_gray := Some gray;
        fresh_start := fresh_start self;
        rigid_transform :=
          match estimate with
          | Some t => accumulate (rigid_transform self) t
          | None => rigid_transform self
          end |},
     mkTrace (detect' (tracked_features self) gray).2 (Tracked estimate)).
Proof.
  intros gray features new_features old_features estimate Hprev Hne.
  subst gray features new_features old_features estimate.
  unfold process_image_traced.
  destruct (detect' _ _) as [features ran]. simpl in *. rewrite Hprev.
  destruct features as [| p rest]; [congruence |].
  destruct (track' _ _ _) as [new_features old_features]. simpl.
  intros ->. reflexivity.
Qed.


(** *** Size of the landmark set *)

Lemma detect_bound (features : list point) (gray : gray_image) :
  len features <= 499 -> len (detect' features gray).1 <= 499.
Proof.
  unfold detect, len. intros H.
  destruct (Z.ltb_spec (Z.of_nat (length features)) 200); [| exact H].
  destruct (goodFeaturesToTrack _ _ _ _) as [corners |] eqn:E; simpl; [| exact H].
  apply goodFeaturesToTrack_max in E. unfold len in E.
  rewrite length_app. lia.
Qed.

Lemma track_shrinks (prev gray : gray_image) (features : list point) :
  len (track' prev gray features).1 <= len features.
Proof.
  unfold track, len.
  pose proof (calcOpticalFlowPyrLK_status prev gray features) as Hlen.
  destruct (calcOpticalFlowPyrLK _ _ _) as [new_features status]. simpl in *.
  pose proof (take_at_length new_features (where_eq_1 status)).
  pose proof (where_eq_1_from_length 0 status). unfold where_eq_1 in *. lia.
Qed.

Lemma process_image_bound (self : Tracker) (img : image) :
  len (tracked_features self) <= 499 ->
  len (tracked_features (process_image' self img)) <= 499.
Proof.
  intros H. unfold process_image.
  pose proof (detect_bound _ (cvtColor img) H) as Hd.
  set (features := (detect' (tracked_features self) (cvtColor img)).1) in *.
  destruct (prev_gray self) as [prev |] eqn:Hprev.
  - destruct (decide (features = [])) as [Hnil | Hne].
    + rewrite process_image_skipped by (right; exact Hnil). exact Hd.
    + destruct (below_80_percent (len (track' prev (cvtColor img) features).1)
                  (len features)) eqn:Hb.
      * erewrite process_image_reset by eassumption. simpl. unfold len. simpl. lia.
      * erewrite process_image_tracked by eassumption. simpl.
        pose proof (track_shrinks prev (cvtColor img) features). fold features. lia.
  - rewrite process_image_skipped by (left; exact Hprev). exact Hd.
Qed.

(** *** Detection *)

(** C5.  The detector is called exactly when fewer than 200 landmarks are
    held.  It is then asked for at most 300 corners at quality level 0.01
    and minimum distance 10, returns at most 300, and all of them are
    appended; when it finds none the set is unchanged.  With 200 landmarks
    or more the detection stage leaves the set as it is. *)
Theorem detection_below_200 (self : Tracker) (img : image) :
  let gray := cvtColor img in
  let count := len (tracked_features self) in
  let after := (detect' (tracked_features self) gray).1 in
  (detector_ran (process_image_traced' self img).2 = true <-> count < 200) /\
  (200 <= count -> after = tracked_features self) /\
  (count < 200 ->
   match goodFeaturesToTrack gray 300 F64.lit_0_01 10 with
   | Some corners =>
       after = tracked_features self ++ corners /\ len corners <= 300
   | None => after = tracked_features self
   end).
Proof.
  intros gray count after. subst after.
  assert (Hran : detector_ran (process_image_traced' self img).2 =
                 (detect' (tracked_features self) gray).2).
  { unfold process_image_traced. fold gray.
    destruct (detect' _ _) as [features ran].
    destruct (prev_gray self); [destruct features |]; try reflexivity.
    destruct (track' _ _ _). destruct (below_80_percent _ _); reflexivity. }
  rewrite Hran. unfold detect. fold count.
  destruct (Z.ltb_spec count 200) as [Hlt | Hge].
  - destruct (goodFeaturesToTrack _ _ _ _) as [corners |] eqn:E; simpl.
    + apply goodFeaturesToTrack_max in E. repeat split; auto; lia.
    + repeat split; auto; lia.
  - simpl. repeat split; try discriminate; try lia; auto.
Qed.

(** C10.  From the initial tracker, after any sequence of calls the landmark
    set holds at most 499 points. *)
Theorem landmark_count_at_most_499 (frames : list image) :
  len (tracked_features (run' init frames)) <= 499.
Proof.
  unfold run.
  assert (H : len (tracked_features init) <= 499) by (unfold len; simpl; lia).
  revert H. generalize init.
  induction frames as [| img rest IH]; intros self H; simpl.
  - exact H.
  - apply IH, process_image_bound, H.
Qed.

(** *** Reset *)

(** C1.  In the tracking state, when fewer than 80% of the landmarks held
    before tracking come back valid, the call leaves the tracker in its
    initial state (no landmarks, identity transform, no previous raster,
    fresh start) and no estimate is attempted. *)
Theorem reset_below_80_percent
    (self : Tracker) (img : image) (prev : gray_image) :
  let gray := cvtColor img in
  let features := (detect' (tracked_features self) gray).1 in
  let valid := (track' prev gray features).1 in
  len (tracked_features self) <= 499 ->
  prev_gray self = Some prev ->
  features <> [] ->
  5 * len valid < 4 * len features ->
  process_image' self img = init /\
  tracking (process_image_traced' self img).2 = Reset.
Proof.
  intros gray features valid Hbound Hprev Hne Hlt.
  assert (Hb : below_80_percent (len valid) (len features) = true).
  { rewrite below_80_percent_spec.
    - apply Z.ltb_lt, Hlt.
    - split; [unfold len; lia | apply detect_bound, Hbound]. }
  unfold process_image.
  rewrite (process_image_reset self img prev Hprev Hne Hb). split; reflexivity.
Qed.

(** With at least 80% of the landmarks valid there is no reset. *)
Lemma no_reset_from_80_percent
    (self : Tracker) (img : image) (prev : gray_image) :
  let gray := cvtColor img in
  let features := (detect' (tracked_features self) gray).1 in
  let valid := (track' prev gray features).1 in
  let old := (track' prev gray features).2 in
  len (tracked_features self) <= 499 ->
  prev_gray self = Some prev ->
  features <> [] ->
  4 * len features <= 5 * len valid ->
  process_image_traced' self img =
    ({| tracked_features := valid;
        prev_gray := Some gray;
        fresh_start := fresh_start self;
        rigid_transform :=
          match estimateAffinePartial2D old valid with
          | Some t => accumulate (rigid_transform self) t
          | None => rigid_transform self
          end |},
     mkTrace (detect' (tracked_features self) gray).2
       (Tracked (estimateAffinePartial2D old valid))).
Proof.
  intros gray features valid old Hbound Hprev Hne Hge.
  apply process_image_tracked; [exact Hprev | exact Hne |].
  rewrite below_80_percent_spec.
  - apply Z.ltb_ge, Hge.
  - split; [unfold len; lia | apply detect_bound, Hbound].
Qed.

(** C2, amended.  With exactly ceil(0.8 K) valid correspondences out of
    K >= 1 landmarks there is no reset: the estimator is called on the valid
    correspondences, they become the landmark set, and the current raster
    becomes the previous one. *)
Theorem no_reset_at_ceil_80_percent
    (self : Tracker) (img : image) (prev : gray_image) :
  let gray := cvtColor img in
  let features := (detect' (tracked_features self) gray).1 in
  let valid := (track' prev gray features).1 in
  let old := (track' prev gray features).2 in
  len (tracked_features self) <= 499 ->
  prev_gray self = Some prev ->
  1 <= len features ->
  len valid = (4 * len features + 4) / 5 ->
  tracking (process_image_traced' self img).2 =
    Tracked (estimateAffinePartial2D old valid) /\
  tracked_features (process_image' self img) = valid /\
  prev_gray (process_image' self img) = Some gray.
Proof.
  intros gray features valid old Hbound Hprev Hk Hn.
  assert (Hne : features <> []).
  { intros E. rewrite E in Hk. unfold len in Hk. simpl in Hk. lia. }
  assert (Hge : 4 * len features <= 5 * len valid).
  { rewrite Hn. Z.to_euclidean_division_equations. lia. }
  unfold process_image.
  rewrite (no_reset_from_80_percent self img prev Hbound Hprev Hne Hge).
  repeat split; reflexivity.
Qed.

(** *** Accumulation *)


(** *** The bottom row *)

(** An increment in the trace is one the estimator returned. *)
Lemma tracked_estimate (self : Tracker) (img : image) (t : mat23) :
  tracking (process_image_traced' self img).2 = Tracked (Some t) ->
  exists old new, estimateAffinePartial2D old new = Some t.
Proof.
  unfold process_image_traced.
  destruct (detect' _ _) as [features ran].
  destruct (prev_gray self); [| discriminate].
  destruct features; [discriminate |].
  destruct (track' _ _ _) as [new_features old_features].
  destruct (below_80_percent _ _); [discriminate |]. simpl.
  intros [= E]. eauto.
Qed.

Lemma process_image_bottom_row (self : Tracker) (img : image) :
  row2 (rigid_transform self) = affine_bottom ->
  match tracking (process_image_traced' self img).2 with
  | Tracked (Some t) => finite23 (stored t) = true
  | _ => True
  end ->
  row2 (rigid_transform (process_image' self img)) = affine_bottom.
Proof.
  intros H. unfold process_image, process_image_traced.
  destruct (detect' _ _) as [features ran].
  destruct (prev_gray self); [| intros _; exact H].
  destruct features; [intros _; exact H |].
  destruct (track' _ _ _) as [new_features old_features].
  destruct (below_80_percent _ _); [intros _; reflexivity |]. simpl.
  destruct (estimateAffinePartial2D _ _) as [t |]; [| intros _; exact H].
  intros Hfin. apply accumulate_bottom_row; assumption.
Qed.

(** C8, amended.  The bottom row of the cumulative transform is [0, 0, 1]
    in the initial tracker and after a reset, and so is the bottom row of
    every embedded increment.  A call preserves it when the increment it
    accumulates, if any, is finite once stored as [float32]; it holds after
    any sequence of calls in which the estimator returns such increments
    only. *)
Theorem bottom_row_invariant :
  row2 (rigid_transform init) = affine_bottom /\
  (forall self img,
     tracking (process_image_traced' self img).2 = Reset ->
     row2 (rigid_transform (process_image' self img)) = affine_bottom) /\
  (forall t, row2 (embed t) = affine_bottom) /\
  (forall self img,
     row2 (rigid_transform self) = affine_bottom ->
     match tracking (process_image_traced' self img).2 with
     | Tracked (Some t) => finite23 (stored t) = true
     | _ => True
     end ->
     row2 (rigid_transform (process_image' self img)) = affine_bottom) /\
  (forall frames,
     (forall old new t,
        estimateAffinePartial2D old new = Some t ->
        finite23 (stored t) = true) ->
     row2 (rigid_transform (run' init frames)) = affine_bottom).
Proof.
  split; [reflexivity |]. split; [| split; [reflexivity | split]].
  - intros self img. unfold process_image, process_image_traced.
    destruct (detect' _ _) as [features ran].
    destruct (prev_gray self); [| discriminate].
    destruct features; [discriminate |].
    destruct (track' _ _ _) as [new_features old_features].
    destruct (below_80_percent _ _); [reflexivity | discriminate].
  - apply process_image_bottom_row.
  - intros frames Hfin. unfold run.
    assert (H : row2 (rigid_transform init) = affine_bottom) by reflexivity.
    revert H. generalize init.
    induction frames as [| img rest IH]; intros self H; simpl.
    + exact H.
    + apply IH, process_image_bottom_row; [exact H |].
      destruct (tracking _) as [| | [t |]] eqn:E; try exact I.
      destruct (tracked_estimate _ _ _ E) as (old & new & Ht).
      exact (Hfin _ _ _ Ht).
Qed.

End TrackerProperties.

(** ** When the estimator yields no transform *)

Section RaisingEstimatorProperties.

Variable cvtColor : image -> gray_image.
Variable goodFeaturesToTrack :
  gray_image -> Z -> spec_float -> Z -> option (list point).
Variable calcOpticalFlowPyrLK :
  gray_image -> gray_image -> list point -> list point * list Z.
Variable estimateAffinePartial2D :
  list point -> list point -> cv2_error + option mat23.

Local Abbreviation process_image_or_raise' :=
  (process_image_or_raise cvtColor goodFeaturesToTrack calcOpticalFlowPyrLK
     estimateAffinePartial2D).
Local Abbreviation raised_by' :=
  (raised_by cvtColor goodFeaturesToTrack calcOpticalFlowPyrLK
     estimateAffinePartial2D).
Local Abbreviation process_image_returning :=
  (process_image cvtColor goodFeaturesToTrack calcOpticalFlowPyrLK
     (returning estimateAffinePartial2D)).
Local Abbreviation process_image_traced_returning :=
  (process_image_traced cvtColor goodFeaturesToTrack calcOpticalFlowPyrLK
     (returning estimateAffinePartial2D)).

(** On a call that no exception leaves, the tracker is the one
    [process_image] gives with the estimator's returned values. *)
Lemma process_image_or_raise_returns (self : Tracker) (img : image) :
  raised_by' self img = None ->
  (process_image_or_raise' self img).1 = process_image_returning self img.
Proof.
  unfold raised_by, process_image_or_raise, process_image,
    process_image_traced, returning.
  destruct (detect _ _ _) as [features ran].
  destruct (prev_gray self); [| reflexivity].
  destruct features; [reflexivity |].
  destruct (track _ _ _ _) as [new_features old_features].
  destruct (below_80_percent _ _); [reflexivity |].
  destruct (estimateAffinePartial2D _ _) as [e | [t |]];
    [discriminate | reflexivity | reflexivity].
Qed.

(** The estimator is reached on the calls that neither skip tracking nor
    reset, and on no others. *)
Lemma estimator_reached (self : Tracker) (img : image) :
  (process_image_or_raise' self img).2 = None <->
  tracking (process_image_traced_returning self img).2 = Skipped \/
  tracking (process_image_traced_returning self img).2 = Reset.
Proof.
  unfold process_image_or_raise, process_image_traced.
  destruct (detect _ _ _) as [features ran].
  destruct (prev_gray self); [| simpl; tauto].
  destruct features; [simpl; tauto |].
  destruct (track _ _ _ _) as [new_features old_features].
  destruct (below_80_percent _ _); [simpl; tauto |].
  destruct (estimateAffinePartial2D _ _) as [e | t]; simpl;
    split; try discriminate; intros [? | ?]; discriminate.
Qed.


End RaisingEstimatorProperties.

(** ** Properties of the compositing loop *)

Lemma is_black_iff (p : pixel) : is_black p = true <-> p = (0, 0, 0).
Proof.
  destruct p as [[b g] r]. unfold is_black.
  rewrite !andb_true_iff, !Z.eqb_eq. split.
  - intros [[-> ->] ->]. reflexivity.
  - intros [= -> -> ->]. auto.
Qed.

Lemma hole_fill_pixel (stabilized last : image) (i j : nat) (p q : pixel) :
  pixel_at stabilized i j = Some p ->
  pixel_at last i j = Some q ->
  pixel_at (hole_fill stabilized last) i j =
    Some (if is_black p then q else p).
Proof.
  unfold pixel_at, hole_fill. rewrite lookup_zip_with.
  destruct (stabilized !! i) as [srow |]; [| discriminate].
  destruct (last !! i) as [lrow |]; [| discriminate]. simpl.
  rewrite lookup_zip_with. intros -> ->. reflexivity.
Qed.

(** C9.  Hole-fill looks at the value of a pixel only: a pixel of the
    warped raster that is [(0, 0, 0)] is replaced by the pixel of the
    previous output at its place, wherever the black comes from; any other
    pixel is kept. *)
Theorem hole_fill_keys_on_value
    (stabilized last : image) (i j : nat) (p q : pixel) :
  pixel_at stabilized i j = Some p ->
  pixel_at last i j = Some q ->
  pixel_at (hole_fill stabilized last) i j =
    Some (if decide (p = (0, 0, 0)) then q else p).
Proof.
  intros Hp Hq. rewrite (hole_fill_pixel _ _ _ _ _ _ Hp Hq).
  destruct (decide (p = (0, 0, 0))) as [-> | Hne]; [reflexivity |].
  destruct (is_black p) eqn:E; [| reflexivity].
  apply is_black_iff in E. contradiction.
Qed.

Section MainProperties.

Variable cvtColor : image -> gray_image.
Variable goodFeaturesToTrack :
  gray_image -> Z -> spec_float -> Z -> option (list point).
Variable calcOpticalFlowPyrLK :
  gray_image -> gray_image -> list point -> list point * list Z.
Variable estimateAffinePartial2D : list point -> list point -> option mat23.
Variable inv : mat3 -> option mat3.
Variable warpAffine : image -> mat23 -> Z -> Z -> image.
Variable circle : image -> point -> image.
Variables frame_width frame_height : Z.

Local Abbreviation process_image' :=
  (process_image cvtColor goodFeaturesToTrack calcOpticalFlowPyrLK
     estimateAffinePartial2D).
Local Abbreviation iteration' :=
  (iteration cvtColor goodFeaturesToTrack calcOpticalFlowPyrLK
     estimateAffinePartial2D inv warpAffine circle frame_width frame_height).
Local Abbreviation main_loop' :=
  (main_loop cvtColor goodFeaturesToTrack calcOpticalFlowPyrLK
     estimateAffinePartial2D inv warpAffine circle frame_width frame_height).

(** C7.  Once a stabilized output has been kept, the next frame's output is
    the warped raster with every black pixel replaced by the pixel of the
    kept output at its place and every other pixel as the warp left it;
    this raster is written to the stream without points and kept for the
    frame after, and the landmarks are drawn on a copy of it that goes to
    the other stream. *)
Theorem hole_fill_from_previous_output
    (m m' : Main) (frame last : image) (inv_transform : mat3) :
  let warped :=
    warpAffine frame (top_rows inv_transform) frame_width frame_height in
  let composited := hole_fill warped last in
  last_valid_frame m = Some last ->
  inv (rigid_transform (process_image' (tracker m) frame)) = Some inv_transform ->
  iteration' m frame = Some m' ->
  last_valid_frame m' = Some composited /\
  out_without_points m' = out_without_points m ++ [composited] /\
  out_with_points m' =
    out_with_points m ++
      [draw_points circle composited
         (tracked_features (process_image' (tracker m) frame))] /\
  (forall i j p q,
     pixel_at warped i j = Some p ->
     pixel_at last i j = Some q ->
     pixel_at composited i j = Some (if decide (p = (0, 0, 0)) then q else p)) /\
  (forall i j q,
     pixel_at warped i j = Some (0, 0, 0) ->
     pixel_at last i j = Some q ->
     pixel_at composited i j = Some q) /\
  (forall i j p,
     pixel_at warped i j = Some p ->
     p <> (0, 0, 0) ->
     pixel_at last i j <> None ->
     pixel_at composited i j = Some p).
Proof.
  intros warped composited Hlast Hinv. unfold iteration. rewrite Hinv, Hlast.
  intros [= <-]. simpl.
  split; [reflexivity |]. split; [reflexivity |]. split; [reflexivity |].
  assert (Hpix : forall i j p q,
             pixel_at warped i j = Some p ->
             pixel_at last i j = Some q ->
             pixel_at composited i j =
               Some (if decide (p = (0, 0, 0)) then q else p)).
  { intros i j p q Hp Hq. subst composited.
    rewrite (hole_fill_pixel _ _ _ _ _ _ Hp Hq).
    destruct (decide (p = (0, 0, 0))) as [-> | Hne]; [reflexivity |].
    destruct (is_black p) eqn:E; [| reflexivity].
    apply is_black_iff in E. contradiction. }
  split; [exact Hpix |]. split.
  - intros i j q Hp Hq. rewrite (Hpix _ _ _ _ Hp Hq).
    destruct (decide _); [reflexivity | contradiction].
  - intros i j p Hp Hne Hq.
    destruct (pixel_at last i j) as [q |] eqn:Eq; [| contradiction].
    rewrite (Hpix _ _ _ _ Hp Eq).
    destruct (decide _); [contradiction | reflexivity].
Qed.

(** Every completed pass keeps a stabilized output. *)
Lemma iteration_keeps_output (m m' : Main) (frame : image) :
  iteration' m frame = Some m' -> last_valid_frame m' <> None.
Proof.
  unfold iteration. destruct (inv _); [| discriminate].
  intros [= <-]. discriminate.
Qed.

(** C4, as the program behaves.  When the inversion of the cumulative
    transform raises, the loop ends there with the exception: the frame is
    not written and the rest of the stream is never read. *)
Theorem singular_transform_aborts
    (m : Main) (frame : image) (key : Z) (rest : list (image * Z)) :
  inv (rigid_transform (process_image' (tracker m) frame)) = None ->
  main_loop' m ((frame, key) :: rest) = LinAlgError m.
Proof.
  intros Hinv. simpl. unfold iteration. rewrite Hinv. reflexivity.
Qed.

End MainProperties.

(** ** The stand-ins meet the contracts *)

Lemma Demo_goodFeaturesToTrack_max
    (gray : gray_image) (maxCorners : Z) (qualityLevel : spec_float)
    (minDistance : Z) (corners : list point) :
  Demo.goodFeaturesToTrack gray maxCorners qualityLevel minDistance
    = Some corners ->
  len corners <= maxCorners.
Proof.
  unfold Demo.goodFeaturesToTrack, len.
  set (all := map _ _).
  destruct (take (Z.to_nat maxCorners) all) as [| c found] eqn:E;
    [discriminate |].
  intros [= <-]. rewrite <- E, length_take.
  assert (Z.to_nat maxCorners <> 0%nat) by (intros Hz; rewrite Hz in E; discriminate).
  lia.
Defined.

Lemma Demo_calcOpticalFlowPyrLK_status
    (prev gray : gray_image) (points : list point) :
  length (Demo.calcOpticalFlowPyrLK prev gray points).2 = length points.
Proof.
  unfold Demo.calcOpticalFlowPyrLK. simpl.
  rewrite length_take, length_app, length_replicate. lia.
Defined.

(** ** The theorems at concrete streams *)

Lemma detection_below_200_witness :
  detector_ran (Demo.process_image_traced init Demo.five_corners).2 = true
  <-> len (tracked_features init) < 200.
Proof.
  apply (detection_below_200 Demo.cvtColor Demo.goodFeaturesToTrack
           Demo.calcOpticalFlowPyrLK Demo.estimateAffinePartial2D
           Demo_goodFeaturesToTrack_max init Demo.five_corners).
Defined.

Lemma landmark_count_at_most_499_witness :
  len (tracked_features
         (run Demo.cvtColor Demo.goodFeaturesToTrack Demo.calcOpticalFlowPyrLK
            Demo.estimateAffinePartial2D init
            [Demo.five_corners; Demo.loses_one; Demo.moves_down])) <= 499.
Proof.
  apply (landmark_count_at_most_499 Demo.cvtColor Demo.goodFeaturesToTrack
           Demo.calcOpticalFlowPyrLK Demo.estimateAffinePartial2D
           Demo_goodFeaturesToTrack_max Demo_calcOpticalFlowPyrLK_status).
Defined.

Lemma reset_below_80_percent_witness :
  prev_gray Demo.tracking_five = Some (Demo.cvtColor Demo.five_corners) /\
  Demo.process_image Demo.tracking_five Demo.loses_two = init /\
  tracking (Demo.process_image_traced Demo.tracking_five Demo.loses_two).2
    = Reset.
Proof.
  split; [reflexivity |].
  apply (reset_below_80_percent Demo.cvtColor Demo.goodFeaturesToTrack
           Demo.calcOpticalFlowPyrLK Demo.estimateAffinePartial2D
           Demo_goodFeaturesToTrack_max Demo.tracking_five Demo.loses_two
           (Demo.cvtColor Demo.five_corners)).
  - vm_compute. discriminate.
  - reflexivity.
  - vm_compute. discriminate.
  - vm_compute. reflexivity.
Defined.

Lemma no_reset_at_ceil_80_percent_witness :
  len (tracked_features (Demo.process_image Demo.tracking_five Demo.loses_one))
    = (4 * 5 + 4) / 5 /\
  prev_gray (Demo.process_image Demo.tracking_five Demo.loses_one)
    = Some (Demo.cvtColor Demo.loses_one).
Proof.
  destruct (no_reset_at_ceil_80_percent Demo.cvtColor Demo.goodFeaturesToTrack
              Demo.calcOpticalFlowPyrLK Demo.estimateAffinePartial2D
              Demo_goodFeaturesToTrack_max Demo.tracking_five Demo.loses_one
              (Demo.cvtColor Demo.five_corners)) as (_ & Hfeatures & Hprev).
  - vm_compute. discriminate.
  - reflexivity.
  - vm_compute. discriminate.
  - vm_compute. reflexivity.
  - split; [| exact Hprev].
    unfold Demo.process_image. rewrite Hfeatures. vm_compute. reflexivity.
Defined.

(** C2 as stated fails.  Six landmarks are held and a previous raster is
    present; four of the six, that is floor(0.8 * 6), are tracked; the call
    resets the tracker. *)
Lemma reset_at_floor_80_percent :
  let gray := Demo.cvtColor Demo.four_of_six in
  let features :=
    (detect Demo.goodFeaturesToTrack (tracked_features Demo.tracking_six) gray).1 in
  let valid :=
    (track Demo.calcOpticalFlowPyrLK (Demo.cvtColor Demo.six_corners) gray
       features).1 in
  prev_gray Demo.tracking_six = Some (Demo.cvtColor Demo.six_corners) /\
  len features = 6 /\
  len valid = 4 * 6 / 5 /\
  tracking (Demo.process_image_traced Demo.tracking_six Demo.four_of_six).2
    = Reset /\
  Demo.process_image Demo.tracking_six Demo.four_of_six = init.
Proof. vm_compute. repeat split. Qed.





(** Three increments with whole entries are accumulated, none of them a
    translation. *)
Lemma bottom_row_invariant_witness :
  let answers :=
    [Demo.whole 2 1 3 (-1) 2 5; Demo.whole 0 (-1) 4 1 0 (-2);
     Demo.whole 3 0 1 0 3 (-1)] in
  let final :=
    run Demo.cvtColor Demo.goodFeaturesToTrack Demo.calcOpticalFlowPyrLK
      (Demo.scripted answers) init
      [Demo.ten_corners; Demo.keeps_ten; Demo.keeps_nine; Demo.keeps_eight] in
  rigid_transform final = Demo.whole3 3 (-6) 12 6 3 (-2) /\
  row2 (rigid_transform final) = affine_bottom.
Proof.
  intros answers final. split; [vm_compute; reflexivity |].
  destruct (bottom_row_invariant Demo.cvtColor Demo.goodFeaturesToTrack
              Demo.calcOpticalFlowPyrLK (Demo.scripted answers))
    as (_ & _ & _ & _ & Hrun).
  apply Hrun. intros old new t. unfold Demo.scripted. subst answers.
  destruct (10 - length new)%nat as [| [| [| n]]]; simpl;
    try discriminate; intros [= <-]; vm_compute; reflexivity.
Defined.

(** C8 as stated fails.  The estimate is finite in [float64]; its first
    entry, 2^128, becomes an infinity when line 51 stores it as [float32],
    and the product of the zero in the bottom row with it is a NaN. *)
Lemma overflowing_increment_breaks_bottom_row :
  let before :=
    process_image Demo.cvtColor Demo.goodFeaturesToTrack
      Demo.calcOpticalFlowPyrLK (Demo.scripted [Demo.too_large]) init
      Demo.ten_corners in
  let after :=
    process_image Demo.cvtColor Demo.goodFeaturesToTrack
      Demo.calcOpticalFlowPyrLK (Demo.scripted [Demo.too_large]) before
      Demo.keeps_ten in
  finite23 Demo.too_large = true /\
  row2 (rigid_transform before) = affine_bottom /\
  tracking
    (process_image_traced Demo.cvtColor Demo.goodFeaturesToTrack
       Demo.calcOpticalFlowPyrLK (Demo.scripted [Demo.too_large]) before
       Demo.keeps_ten).2 = Tracked (Some Demo.too_large) /\
  v0 (top0 (stored Demo.too_large)) = S754_infinity false /\
  row2 (rigid_transform after) = V3 S754_nan F32.zero F32.one /\
  row2 (rigid_transform after) <> affine_bottom.
Proof. vm_compute. repeat split. discriminate. Qed.

(** In [dark_spots] the pixel at row 1, column 1 is black in the scene, and
    column 3 is outside the frame; both are filled from the output kept
    after [bright]. *)
Lemma hole_fill_keys_on_value_witness :
  let warped := Demo.warpAffine Demo.dark_spots (top_rows eye3) 4 3 in
  pixel_at Demo.dark_spots 1 1 = Some (0, 0, 0) /\
  pixel_at Demo.dark_spots 1 3 = None /\
  pixel_at (hole_fill warped Demo.bright) 1 1 = Some (20, 20, 20) /\
  pixel_at (hole_fill warped Demo.bright) 1 3 = Some (40, 40, 40).
Proof.
  intros warped. split; [reflexivity |]. split; [reflexivity |]. split.
  - apply (hole_fill_keys_on_value warped Demo.bright 1 1 (0, 0, 0) (20, 20, 20));
      reflexivity.
  - apply (hole_fill_keys_on_value warped Demo.bright 1 3 (0, 0, 0) (40, 40, 40));
      reflexivity.
Defined.

(** After [bright], the frame [dark_spots] is composited: its black pixel
    at row 2, column 0 takes the pixel of [bright] there, and its pixel at
    row 0, column 0, which is not black, stays as it is. *)
Lemma hole_fill_from_previous_output_witness :
  let warped := Demo.warpAffine Demo.dark_spots (top_rows eye3) 4 3 in
  last_valid_frame Demo.after_bright = Some Demo.bright /\
  pixel_at warped 2 0 = Some (0, 0, 0) /\
  pixel_at warped 0 0 = Some (1, 1, 1) /\
  pixel_at Demo.bright 0 0 = Some (9, 9, 9) /\
  last_valid_frame Demo.after_dark_spots = Some (hole_fill warped Demo.bright) /\
  pixel_at (hole_fill warped Demo.bright) 2 0 = Some (5, 5, 5) /\
  pixel_at (hole_fill warped Demo.bright) 0 0 = Some (1, 1, 1).
Proof.
  intros warped. split; [reflexivity |]. split; [reflexivity |].
  split; [reflexivity |]. split; [reflexivity |].
  destruct (hole_fill_from_previous_output Demo.cvtColor
              Demo.goodFeaturesToTrack Demo.calcOpticalFlowPyrLK
              Demo.estimateAffinePartial2D Demo.inv Demo.warpAffine
              Demo.circle 4 3 Demo.after_bright Demo.after_dark_spots
              Demo.dark_spots Demo.bright eye3)
    as (Hkept & _ & _ & Hpix & _ & _).
  - reflexivity.
  - vm_compute. reflexivity.
  - vm_compute. reflexivity.
  - split; [exact Hkept |]. split.
    + exact (Hpix 2%nat 0%nat (0, 0, 0) (5, 5, 5) eq_refl eq_refl).
    + exact (Hpix 0%nat 0%nat (1, 1, 1) (9, 9, 9) eq_refl eq_refl).
Defined.

(** The estimator of the collapsing scene makes the cumulative transform
    singular on the second frame of three: one frame has been written, the
    loop ends with the exception, and the third frame is never read. *)
Lemma singular_transform_aborts_witness :
  rigid_transform
    (process_image Demo.cvtColor Demo.goodFeaturesToTrack
       Demo.calcOpticalFlowPyrLK Demo.collapsed (tracker Demo.after_bright)
       Demo.dark_spots)
  = M3 (V3 F32.zero F32.zero F32.zero) (V3 F32.zero F32.zero F32.zero)
       affine_bottom /\
  Demo.main_loop_collapsing main_start Demo.three_frames
  = LinAlgError Demo.after_bright /\
  length (out_without_points Demo.after_bright) = 1%nat.
Proof.
  split; [vm_compute; reflexivity |]. split; [| reflexivity].
  transitivity
    (Demo.main_loop_collapsing Demo.after_bright
       [(Demo.dark_spots, 0); (Demo.bright, 0)]).
  - vm_compute. reflexivity.
  - apply (singular_transform_aborts Demo.cvtColor Demo.goodFeaturesToTrack
             Demo.calcOpticalFlowPyrLK Demo.collapsed Demo.inv
             Demo.warpAffine Demo.circle 4 3).
    vm_compute. reflexivity.
Defined.


(** ** Further properties of [Tracker.process_image] *)

Lemma where_eq_1_from_count (i : nat) (status : list Z) :
  length (where_eq_1_from i status)
  = length (List.filter (fun s => s =? 1) status).
Proof.
  revert i. induction status as [| s rest IH]; intros i; simpl.
  - reflexivity.
  - destruct (s =? 1); simpl; rewrite IH; reflexivity.
Qed.

Lemma where_eq_1_from_range (i : nat) (status : list Z) :
  Forall (fun j => (j < i + length status)%nat) (where_eq_1_from i status).
Proof.
  revert i. induction status as [| s rest IH]; intros i; simpl.
  - constructor.
  - specialize (IH (S i)).
    assert (H : Forall (fun j => (j < i + S (length rest))%nat)
                  (where_eq_1_from (S i) rest)).
    { eapply Forall_impl; [exact IH |]. simpl. intros j Hj. lia. }
    destruct (s =? 1); [constructor; [lia | exact H] | exact H].
Qed.

Lemma take_at_in_range {A} (a : list A) (indices : list nat) :
  Forall (fun j => (j < length a)%nat) indices ->
  length (take_at a indices) = length indices.
Proof.
  unfold take_at. induction 1 as [| j rest Hj _ IH]; csimpl.
  - reflexivity.
  - destruct (lookup_lt_is_Some_2 a j Hj) as [x ->]. csimpl. rewrite IH.
    reflexivity.
Qed.

Section TrackerRuns.

Variable cvtColor : image -> gray_image.
Variable goodFeaturesToTrack :
  gray_image -> Z -> spec_float -> Z -> option (list point).
Variable calcOpticalFlowPyrLK :
  gray_image -> gray_image -> list point -> list point * list Z.
Variable estimateAffinePartial2D : list point -> list point -> option mat23.

Hypothesis goodFeaturesToTrack_max :
  forall gray maxCorners qualityLevel minDistance corners,
    goodFeaturesToTrack gray maxCorners qualityLevel minDistance = Some corners ->
    len corners <= maxCorners.
Hypothesis calcOpticalFlowPyrLK_status :
  forall prev gray points,
    length (calcOpticalFlowPyrLK prev gray points).2 = length points.
Hypothesis calcOpticalFlowPyrLK_points :
  forall prev gray points,
    length (calcOpticalFlowPyrLK prev gray points).1 = length points.

Local Abbreviation detect' := (detect goodFeaturesToTrack).
Local Abbreviation track' := (track calcOpticalFlowPyrLK).
Local Abbreviation process_image_traced' :=
  (process_image_traced cvtColor goodFeaturesToTrack calcOpticalFlowPyrLK
     estimateAffinePartial2D).
Local Abbreviation process_image' :=
  (process_image cvtColor goodFeaturesToTrack calcOpticalFlowPyrLK
     estimateAffinePartial2D).
Local Abbreviation run' :=
  (run cvtColor goodFeaturesToTrack calcOpticalFlowPyrLK
     estimateAffinePartial2D).

(** Breaks a call into its cases. *)
Ltac by_path self :=
  unfold process_image, process_image_traced;
  destruct (detect' _ _) as [features ran];
  destruct (prev_gray self) as [prev |];
  [ destruct features as [| p features];
    [ | destruct (track' _ _ _) as [new_features old_features];
        destruct (below_80_percent _ _) ]
  | ]; simpl.

(** X1.  The flag [fresh_start] is set at construction and on a reset and is
    cleared nowhere: it is true after any sequence of calls. *)
Theorem fresh_start_always_true (frames : list image) :
  fresh_start (run' init frames) = true.
Proof.
  unfold run.
  assert (H : fresh_start init = true) by reflexivity.
  revert H. generalize init.
  induction frames as [| img rest IH]; intros self H; simpl.
  - exact H.
  - apply IH. revert H. by_path self; auto.
Qed.

(** X2.  After a call the previous raster is absent exactly when the call reset
    the tracker; otherwise it is the grey raster of the frame just seen. *)
Theorem previous_raster_after_call (self : Tracker) (img : image) :
  (tracking (process_image_traced' self img).2 = Reset <->
   prev_gray (process_image' self img) = None) /\
  (tracking (process_image_traced' self img).2 <> Reset ->
   prev_gray (process_image' self img) = Some (cvtColor img)).
Proof.
  by_path self; (split; [split |]); try discriminate; try reflexivity;
    try contradiction; auto.
Qed.

(** X3.  The call that follows a reset never tracks and never resets: it runs
    the detector on an empty set, keeps what it finds, stores the raster and
    leaves the identity transform. *)
Theorem call_after_reset (self : Tracker) (img1 img2 : image) :
  let after := process_image' self img1 in
  let gray := cvtColor img2 in
  tracking (process_image_traced' self img1).2 = Reset ->
  process_image_traced' after img2 =
    ({| tracked_features :=
          default [] (goodFeaturesToTrack gray 300 F64.lit_0_01 10);
        prev_gray := Some gray;
        fresh_start := true;
        rigid_transform := eye3 |},
     mkTrace true Skipped).
Proof.
  intros after gray Hreset.
  assert (E : after = init).
  { subst after. revert Hreset. by_path self; try discriminate. reflexivity. }
  rewrite E. unfold process_image_traced, detect. fold gray. simpl.
  destruct (goodFeaturesToTrack gray 300 F64.lit_0_01 10); reflexivity.
Qed.

(** X4.  The estimator is given as many old positions as new ones, one pair for
    each status byte equal to 1. *)
Theorem estimator_gets_pairs (prev gray : gray_image) (features : list point) :
  let status := (calcOpticalFlowPyrLK prev gray features).2 in
  let valid := List.filter (fun s => s =? 1) status in
  length (track' prev gray features).1 = length valid /\
  length (track' prev gray features).2 = length valid.
Proof.
  intros status valid. subst status valid. unfold track.
  pose proof (calcOpticalFlowPyrLK_status prev gray features) as Hs.
  pose proof (calcOpticalFlowPyrLK_points prev gray features) as Hp.
  destruct (calcOpticalFlowPyrLK _ _ _) as [new_features status]. simpl in *.
  pose proof (where_eq_1_from_range 0 status) as Hrange. simpl in Hrange.
  unfold where_eq_1.
  rewrite !take_at_in_range, where_eq_1_from_count; [auto | |].
  - rewrite <- Hs. exact Hrange.
  - rewrite Hp, <- Hs. exact Hrange.
Qed.

(** X6.  A call that goes on to the estimator keeps at least 80% of the
    landmarks it held after detection, and no more than all of them. *)
Theorem tracked_call_keeps_80_percent
    (self : Tracker) (img : image) (estimate : option mat23) :
  let held := len (detect' (tracked_features self) (cvtColor img)).1 in
  let kept := len (tracked_features (process_image' self img)) in
  len (tracked_features self) <= 499 ->
  tracking (process_image_traced' self img).2 = Tracked estimate ->
  4 * held <= 5 * kept /\ kept <= held.
Proof.
  intros held kept Hbound. subst held kept.
  pose proof (detect_bound goodFeaturesToTrack goodFeaturesToTrack_max
                _ (cvtColor img) Hbound) as Hd.
  unfold process_image, process_image_traced.
  destruct (detect' _ _) as [features ran]. simpl in Hd |- *.
  destruct (prev_gray self) as [prev |]; [| discriminate].
  destruct features as [| p features]; [discriminate |].
  pose proof (track_shrinks calcOpticalFlowPyrLK calcOpticalFlowPyrLK_status
                prev (cvtColor img) (p :: features)) as Hshrink.
  destruct (track' _ _ _) as [new_features old_features]. simpl in Hshrink.
  destruct (below_80_percent _ _) eqn:Hb; [discriminate |]. simpl. intros _.
  rewrite below_80_percent_spec in Hb by (unfold len in *; lia).
  apply Z.ltb_ge in Hb. split; [exact Hb | exact Hshrink].
Qed.

(** X7.  As long as the estimator yields nothing, the cumulative transform is
    the identity. *)
Theorem identity_without_estimates (frames : list image) :
  (forall old new, estimateAffinePartial2D old new = None) ->
  rigid_transform (run' init frames) = eye3.
Proof.
  intros Hnone. unfold run.
  assert (H : rigid_transform init = eye3) by reflexivity.
  revert H. generalize init.
  induction frames as [| img rest IH]; intros self H; simpl.
  - exact H.
  - apply IH. revert H. by_path self; auto.
    rewrite Hnone. auto.
Qed.

End TrackerRuns.

(** ** Further properties of the compositing loop *)

Lemma hole_fill_no_black (stabilized last : image) :
  no_black last = true -> no_black (hole_fill stabilized last) = true.
Proof.
  unfold no_black, hole_fill. revert last.
  induction stabilized as [| srow stabilized IH]; intros [| lrow last];
    simpl; try reflexivity.
  rewrite !andb_true_iff. intros [Hrow Hrest]. split; [| apply IH, Hrest].
  clear -Hrow. revert lrow Hrow.
  induction srow as [| p srow IH]; intros [| q lrow]; simpl; try reflexivity.
  rewrite !andb_true_iff. intros [Hq Hrest]. split; [| apply IH, Hrest].
  destruct (is_black p) eqn:E; [exact Hq | rewrite E; reflexivity].
Qed.

Lemma hole_fill_row_length (width : nat) (srow lrow : list pixel) :
  length srow = width -> length lrow = width ->
  length (zip_with (fun p q => if is_black p then q else p) srow lrow) = width.
Proof. intros Hs Hl. rewrite length_zip_with. lia. Qed.

(** Hole-fill of two rasters of one shape gives a raster of that shape. *)
Lemma hole_fill_shape (height width : nat) (stabilized last : image) :
  has_shape height width stabilized ->
  has_shape height width last ->
  has_shape height width (hole_fill stabilized last).
Proof.
  unfold has_shape, hole_fill. intros [Hs Hrows] [Hl Hlrows]. split.
  - rewrite length_zip_with. lia.
  - clear Hs Hl. revert last Hlrows.
    induction Hrows as [| srow stabilized Hrow _ IH]; intros last Hlrows.
    + constructor.
    + destruct Hlrows as [| lrow last Hlrow Hlrows]; simpl; constructor.
      * apply hole_fill_row_length; assumption.
      * apply IH, Hlrows.
Qed.

Section MainRuns.

Variable cvtColor : image -> gray_image.
Variable goodFeaturesToTrack :
  gray_image -> Z -> spec_float -> Z -> option (list point).
Variable calcOpticalFlowPyrLK :
  gray_image -> gray_image -> list point -> list point * list Z.
Variable estimateAffinePartial2D : list point -> list point -> option mat23.
Variable inv : mat3 -> option mat3.
Variable warpAffine : image -> mat23 -> Z -> Z -> image.
Variables frame_width frame_height : Z.

Local Abbreviation iteration_with circle :=
  (iteration cvtColor goodFeaturesToTrack calcOpticalFlowPyrLK
     estimateAffinePartial2D inv warpAffine circle frame_width frame_height).
Local Abbreviation main_loop_with circle :=
  (main_loop cvtColor goodFeaturesToTrack calcOpticalFlowPyrLK
     estimateAffinePartial2D inv warpAffine circle frame_width frame_height).

Lemma iteration_without_overlay
    (circle1 circle2 : image -> point -> image) (m1 m2 : Main) (frame : image) :
  without_overlay m1 = without_overlay m2 ->
  without_overlay <$> iteration_with circle1 m1 frame
  = without_overlay <$> iteration_with circle2 m2 frame.
Proof.
  unfold without_overlay, iteration. intros [= Ht Hl Ho]. rewrite Ht, Hl, Ho.
  destruct (inv _); reflexivity.
Qed.

(** X8.  Drawing the landmarks has no effect on the tracker, on the kept
    output or on the stream without points, nor on how the loop ends:
    two runs that differ in the drawing primitive agree on all of them. *)
Theorem overlay_stays_on_its_copy
    (circle1 circle2 : image -> point -> image)
    (frames : list (image * Z)) (m1 m2 : Main) :
  without_overlay m1 = without_overlay m2 ->
  raised (main_loop_with circle1 m1 frames)
  = raised (main_loop_with circle2 m2 frames) /\
  without_overlay (state_of (main_loop_with circle1 m1 frames))
  = without_overlay (state_of (main_loop_with circle2 m2 frames)).
Proof.
  revert m1 m2. induction frames as [| [frame key] rest IH]; intros m1 m2 H.
  - simpl. auto.
  - simpl.
    pose proof (iteration_without_overlay circle1 circle2 m1 m2 frame H) as E.
    destruct (iteration_with circle1 m1 frame) as [m1' |],
             (iteration_with circle2 m2 frame) as [m2' |];
      try discriminate E.
    + assert (E' : without_overlay m1' = without_overlay m2')
        by (cbn in E; congruence).
      destruct (Z.land key 255 =? 27); simpl; auto.
    + simpl. auto.
Qed.

Variable circle : image -> point -> image.

Local Abbreviation iteration' := (iteration_with circle).
Local Abbreviation main_loop' := (main_loop_with circle).

Lemma iteration_appends (m m' : Main) (frame : image) :
  iteration' m frame = Some m' ->
  exists stabilized,
    last_valid_frame m' = Some stabilized /\
    out_without_points m' = out_without_points m ++ [stabilized] /\
    length (out_with_points m') = S (length (out_with_points m)).
Proof.
  unfold iteration. destruct (inv _); [| discriminate].
  intros [= <-]. simpl. eexists. repeat split.
  rewrite length_app. simpl. lia.
Qed.

(** X9.  The two output streams grow together, by one frame for each frame read
    until the loop ends.  If the inversion raised, fewer frames were written
    than the stream holds; if it did not and ESC was never pressed, all
    were. *)
Theorem outputs_written (frames : list (image * Z)) (m : Main) :
  let o := main_loop' m frames in
  exists k : nat,
    (k <= length frames)%nat /\
    length (out_with_points (state_of o)) = (length (out_with_points m) + k)%nat /\
    length (out_without_points (state_of o))
      = (length (out_without_points m) + k)%nat /\
    (raised o = true -> (k < length frames)%nat) /\
    (raised o = false ->
     Forall (fun fk => Z.land fk.2 255 <> 27) frames ->
     k = length frames).
Proof.
  revert m. induction frames as [| [frame key] rest IH]; intros m; simpl.
  - exists 0%nat. repeat split; try lia; discriminate.
  - destruct (iteration' m frame) as [m' |] eqn:E.
    + destruct (iteration_appends _ _ _ E) as (x & _ & Hout & Hwith).
      assert (Hlen : length (out_without_points m')
                     = S (length (out_without_points m))).
      { rewrite Hout, length_app. simpl. lia. }
      destruct (Z.eqb_spec (Z.land key 255) 27) as [Hesc | Hesc].
      * exists 1%nat. simpl. repeat split; try lia; try discriminate.
        intros _ Hall. inversion Hall; subst. simpl in *. contradiction.
      * destruct (IH m') as (k & Hk & Hw & Hwo & Hraised & Hall).
        exists (S k). repeat split; try lia.
        -- intros Hr. specialize (Hraised Hr). lia.
        -- intros Hr Hkeys. inversion Hkeys; subst. rewrite Hall; auto.
    + exists 0%nat. simpl. repeat split; try lia; try discriminate.
Qed.

(** X10.  ESC is recognised in the low byte of the key code.  The frame shown
    when it is pressed has been written to both streams; the frames after it
    are not read. *)
Theorem escape_ends_loop
    (m m' : Main) (frame : image) (key : Z) (rest : list (image * Z)) :
  iteration' m frame = Some m' ->
  key mod 256 = 27 ->
  main_loop' m ((frame, key) :: rest) = Finished m' /\
  length (out_without_points m') = S (length (out_without_points m)) /\
  length (out_with_points m') = S (length (out_with_points m)).
Proof.
  intros E Hkey. simpl. rewrite E.
  change 255 with (Z.ones 8). rewrite Z.land_ones by lia.
  change (2 ^ 8) with 256. rewrite Hkey. simpl. split; [reflexivity |].
  destruct (iteration_appends _ _ _ E) as (x & _ & Hout & Hwith).
  rewrite Hout, length_app. simpl. split; lia.
Qed.

(** A property of the kept output that every pass re-establishes holds
    when the loop has ended, and then a property of the frames each pass
    writes holds of all frames written. *)
Lemma main_loop_invariant (I : Main -> Prop) (P : image -> Prop) :
  (forall m frame m' stabilized,
     I m -> iteration' m frame = Some m' ->
     last_valid_frame m' = Some stabilized -> I m' /\ P stabilized) ->
  forall frames m,
    I m ->
    I (state_of (main_loop' m frames)) /\
    exists new,
      out_without_points (state_of (main_loop' m frames))
        = out_without_points m ++ new /\
      Forall P new.
Proof.
  intros Hstep frames.
  induction frames as [| [frame key] rest IH]; intros m Hm; simpl.
  - split; [exact Hm |]. exists []. rewrite app_nil_r. auto.
  - destruct (iteration' m frame) as [m' |] eqn:E.
    + destruct (iteration_appends _ _ _ E) as (x & Hlast & Hout & _).
      destruct (Hstep _ _ _ _ Hm E Hlast) as [Hm' Hx].
      destruct (Z.land key 255 =? 27); simpl.
      * split; [exact Hm' |]. exists [x]. auto.
      * destruct (IH m' Hm') as (Hw & new & Hnew & Hall).
        split; [exact Hw |]. exists (x :: new).
        rewrite Hnew, Hout, <- app_assoc. auto.
    + simpl. split; [exact Hm |]. exists []. rewrite app_nil_r. auto.
Qed.

(** X11.  Once the kept output has no black pixel, no frame written to the
    stream without points afterwards has one, and the kept output stays
    free of them. *)
Theorem no_black_once_no_black_ever (frames : list (image * Z)) (m : Main) :
  kept_no_black m ->
  kept_no_black (state_of (main_loop' m frames)) /\
  exists new,
    out_without_points (state_of (main_loop' m frames))
      = out_without_points m ++ new /\
    Forall (fun frame => no_black frame = true) new.
Proof.
  apply main_loop_invariant. clear frames m.
  intros m frame m' stabilized Hm. unfold kept_no_black in *.
  unfold iteration. destruct (inv _); [| discriminate].
  destruct (last_valid_frame m) as [last |]; [| contradiction].
  intros [= <-]. simpl. intros [= <-].
  split; apply hole_fill_no_black, Hm.
Qed.

(** X12.  If the warp returns rasters of the size it is asked for, every frame
    written to the stream without points has the size of the video. *)
Theorem written_frames_have_video_size (frames : list (image * Z)) :
  let height := Z.to_nat frame_height in
  let width := Z.to_nat frame_width in
  (forall frame M,
     has_shape height width (warpAffine frame M frame_width frame_height)) ->
  Forall (has_shape height width)
    (out_without_points (state_of (main_loop' main_start frames))).
Proof.
  intros height width Hwarp.
  pose (I := fun m : Main =>
               match last_valid_frame m with
               | Some last => has_shape height width last
               | None => True
               end).
  destruct (main_loop_invariant I (has_shape height width)) with
    (frames := frames) (m := main_start) as (_ & new & -> & Hall).
  - intros m frame m' stabilized Hm. unfold iteration.
    destruct (inv _); [| discriminate].
    intros [= <-]. simpl. intros [= <-]. unfold I in *. simpl.
    destruct (last_valid_frame m) as [last |].
    + split; apply hole_fill_shape; auto.
    + split; apply Hwarp.
  - exact Logic.I.
  - exact Hall.
Qed.

End MainRuns.

(** ** The names of the output files *)

Lemma replace_absent (old new s : string) :
  contains old s = false -> replace_skipping 0 old new s = s.
Proof.
  induction s as [| c rest IH]; cbn [replace_skipping contains].
  - reflexivity.
  - intros H. apply orb_false_elim in H. destruct H as [Hp Hc].
    rewrite Hp, (IH Hc). reflexivity.
Qed.

(** An occurrence of [".mp4"] that starts inside [s ++ ".mp4"] before its
    last four characters lies within [s]. *)
Lemma prefix_mp4_app (c : ascii) (s : string) :
  String.prefix ".mp4" (String c s ++ ".mp4") = true ->
  String.prefix ".mp4" (String c s) = true.
Proof.
  destruct s as [| c1 [| c2 [| c3 s]]];
    repeat (cbn [String.prefix String.append];
            match goal with
            | |- context [ascii_dec ?a ?b] =>
                destruct (ascii_dec a b) as [E | E];
                [try discriminate E; try subst |]
            end);
    cbn [String.prefix String.append]; auto.
  intros _. destruct s; reflexivity.
Qed.

(** X13.  When the path has no [".mp4"] in it, both output names are the input
    path itself; when it has one, the two names differ. *)
Theorem output_names_without_mp4 (video_path : string) :
  (contains ".mp4" video_path = false ->
   output_with_points video_path = video_path /\
   output_without_points video_path = video_path) /\
  (contains ".mp4" video_path = true ->
   output_with_points video_path <> output_without_points video_path).
Proof.
  unfold output_with_points, output_without_points, str_replace. split.
  - intros H. split; apply replace_absent, H.
  - induction video_path as [| c rest IH].
    + discriminate.
    + cbn [contains replace_skipping].
      destruct (String.prefix ".mp4" (String c rest)); cbn.
      * intros _ H. discriminate H.
      * intros Hc [= H]. exact (IH Hc H).
Qed.

(** X14.  For a path that ends in [".mp4"] and has no other [".mp4"] in it, the
    extension is replaced by ["_with_points.mp4"] and
    ["_without_points.mp4"]. *)
Theorem output_names_of_mp4 (base : string) :
  contains ".mp4" base = false ->
  output_with_points (base ++ ".mp4") = (base ++ "_with_points.mp4")%string /\
  output_without_points (base ++ ".mp4")
    = (base ++ "_without_points.mp4")%string.
Proof.
  unfold output_with_points, output_without_points, str_replace.
  induction base as [| c rest IH].
  - intros _. split; reflexivity.
  - cbn [contains]. intros H. apply orb_false_elim in H. destruct H as [Hp Hc].
    assert (Hq : String.prefix ".mp4" (String c rest ++ ".mp4") = false).
    { destruct (String.prefix ".mp4" (String c rest ++ ".mp4")) eqn:E;
        [| reflexivity].
      apply prefix_mp4_app in E. congruence. }
    destruct (IH Hc) as [IH1 IH2].
    change (String c rest ++ ".mp4")%string
      with (String c (rest ++ ".mp4")) in *.
    cbn [replace_skipping]. rewrite Hq, IH1, IH2. split; reflexivity.
Qed.

(** ** The order of the tracked landmarks *)

Lemma drop_S_sublist {A} (a : list A) (i : nat) :
  drop (S i) a `sublist_of` drop i a.
Proof.
  destruct (a !! i) as [x |] eqn:E.
  - rewrite (drop_S a x i E). apply sublist_cons. reflexivity.
  - apply lookup_ge_None in E. rewrite !drop_ge by lia. reflexivity.
Qed.

Lemma take_at_where_sublist {A} (a : list A) (status : list Z) (i : nat) :
  take_at a (where_eq_1_from i status) `sublist_of` drop i a.
Proof.
  revert i. induction status as [| s rest IH]; intros i; simpl.
  - apply sublist_nil_l.
  - destruct (s =? 1).
    + unfold take_at. csimpl. destruct (a !! i) as [x |] eqn:E; csimpl.
      * rewrite (drop_S a x i E). apply sublist_skip, IH.
      * etransitivity; [apply IH | apply drop_S_sublist].
    + etransitivity; [apply IH | apply drop_S_sublist].
Qed.

(** X5.  The old positions handed to the estimator are landmarks the tracker
    holds, in the order in which it holds them: filtering by status drops
    landmarks but never reorders or invents one. *)
Theorem old_positions_in_order
    (calcOpticalFlowPyrLK :
       gray_image -> gray_image -> list point -> list point * list Z)
    (prev gray : gray_image) (features : list point) :
  (track calcOpticalFlowPyrLK prev gray features).2 `sublist_of` features.
Proof.
  unfold track. destruct (calcOpticalFlowPyrLK _ _ _) as [new_features status].
  simpl. apply (take_at_where_sublist features status 0).
Qed.

(** ** More facts about the stand-ins *)

Lemma Demo_calcOpticalFlowPyrLK_points
    (prev gray : gray_image) (points : list point) :
  length (Demo.calcOpticalFlowPyrLK prev gray points).1 = length points.
Proof. unfold Demo.calcOpticalFlowPyrLK. simpl. apply length_map. Defined.

Lemma Demo_warpAffine_shape (frame : image) (M : mat23) (width height : Z) :
  has_shape (Z.to_nat height) (Z.to_nat width)
    (Demo.warpAffine frame M width height).
Proof.
  unfold has_shape, Demo.warpAffine. split.
  - rewrite length_take, length_app, length_replicate. lia.
  - apply Forall_take, Forall_app_2.
    + apply Forall_forall. intros row Hrow.
      apply list_elem_of_fmap in Hrow. destruct Hrow as (r & -> & _).
      rewrite length_take, length_app, length_replicate. lia.
    + apply Forall_replicate, length_replicate.
Defined.

(** ** The further properties at concrete streams *)

Lemma call_after_reset_witness :
  tracking (Demo.process_image_traced Demo.tracking_five Demo.loses_two).2
    = Reset /\
  tracking
    (Demo.process_image_traced
       (Demo.process_image Demo.tracking_five Demo.loses_two)
       Demo.five_corners).2
    = Skipped.
Proof.
  split; [vm_compute; reflexivity |].
  unfold Demo.process_image_traced, Demo.process_image.
  rewrite (call_after_reset Demo.cvtColor Demo.goodFeaturesToTrack
             Demo.calcOpticalFlowPyrLK Demo.estimateAffinePartial2D
             Demo.tracking_five Demo.loses_two Demo.five_corners).
  - reflexivity.
  - vm_compute. reflexivity.
Defined.

Lemma estimator_gets_pairs_witness :
  let gray := Demo.cvtColor Demo.loses_one in
  let pairs :=
    track Demo.calcOpticalFlowPyrLK (Demo.cvtColor Demo.five_corners) gray
      (tracked_features Demo.tracking_five) in
  length pairs.1 = 4%nat /\ length pairs.2 = 4%nat.
Proof.
  intros gray pairs.
  destruct (estimator_gets_pairs Demo.calcOpticalFlowPyrLK
              Demo_calcOpticalFlowPyrLK_status
              Demo_calcOpticalFlowPyrLK_points
              (Demo.cvtColor Demo.five_corners) gray
              (tracked_features Demo.tracking_five)) as [H1 H2].
  subst pairs. split; [rewrite H1 | rewrite H2]; vm_compute; reflexivity.
Defined.

Lemma tracked_call_keeps_80_percent_witness :
  let kept :=
    len (tracked_features
           (Demo.process_image Demo.tracking_five Demo.loses_one)) in
  4 * 5 <= 5 * kept /\ kept <= 5.
Proof.
  apply (tracked_call_keeps_80_percent Demo.cvtColor Demo.goodFeaturesToTrack
           Demo.calcOpticalFlowPyrLK Demo.estimateAffinePartial2D
           Demo_goodFeaturesToTrack_max Demo_calcOpticalFlowPyrLK_status
           Demo.tracking_five Demo.loses_one
           (Some (M23 (V3 F32.one F32.zero (Demo.f32 3))
                      (V3 F32.zero F32.one F32.zero)))).
  - vm_compute. discriminate.
  - vm_compute. reflexivity.
Defined.

Lemma identity_without_estimates_witness :
  rigid_transform
    (run Demo.cvtColor Demo.goodFeaturesToTrack Demo.calcOpticalFlowPyrLK
       (fun _ _ => None) init
       [Demo.five_corners; Demo.loses_one; Demo.moves_down])
  = eye3.
Proof.
  apply (identity_without_estimates Demo.cvtColor Demo.goodFeaturesToTrack
           Demo.calcOpticalFlowPyrLK (fun _ _ => None)).
  reflexivity.
Defined.

Lemma overlay_stays_on_its_copy_witness :
  let with_circles :=
    main_loop Demo.cvtColor Demo.goodFeaturesToTrack Demo.calcOpticalFlowPyrLK
      Demo.estimateAffinePartial2D Demo.inv Demo.warpAffine Demo.circle 4 3
      main_start Demo.three_frames in
  let without_circles :=
    main_loop Demo.cvtColor Demo.goodFeaturesToTrack Demo.calcOpticalFlowPyrLK
      Demo.estimateAffinePartial2D Demo.inv Demo.warpAffine (fun img _ => img)
      4 3 main_start Demo.three_frames in
  out_with_points (state_of with_circles)
    <> out_with_points (state_of without_circles) /\
  raised with_circles = raised without_circles /\
  without_overlay (state_of with_circles)
    = without_overlay (state_of without_circles).
Proof.
  intros with_circles without_circles. split.
  - vm_compute. discriminate.
  - apply (overlay_stays_on_its_copy Demo.cvtColor Demo.goodFeaturesToTrack
             Demo.calcOpticalFlowPyrLK Demo.estimateAffinePartial2D Demo.inv
             Demo.warpAffine 4 3 Demo.circle (fun img _ => img)
             Demo.three_frames main_start main_start).
    reflexivity.
Defined.

Lemma escape_ends_loop_witness :
  main_loop Demo.cvtColor Demo.goodFeaturesToTrack Demo.calcOpticalFlowPyrLK
    Demo.estimateAffinePartial2D Demo.inv Demo.warpAffine Demo.circle 4 3
    Demo.after_bright [(Demo.dark_spots, 283); (Demo.bright, 0)]
  = Finished Demo.after_dark_spots.
Proof.
  apply (escape_ends_loop Demo.cvtColor Demo.goodFeaturesToTrack
           Demo.calcOpticalFlowPyrLK Demo.estimateAffinePartial2D Demo.inv
           Demo.warpAffine 4 3 Demo.circle Demo.after_bright
           Demo.after_dark_spots Demo.dark_spots 283 [(Demo.bright, 0)]).
  - vm_compute. reflexivity.
  - reflexivity.
Defined.

Lemma no_black_once_no_black_ever_witness :
  kept_no_black Demo.after_bright /\
  no_black Demo.dark_spots = false /\
  kept_no_black
    (state_of
       (main_loop Demo.cvtColor Demo.goodFeaturesToTrack
          Demo.calcOpticalFlowPyrLK Demo.estimateAffinePartial2D Demo.inv
          Demo.warpAffine Demo.circle 4 3 Demo.after_bright
          [(Demo.dark_spots, 0); (Demo.dark_spots, 0)])).
Proof.
  split; [vm_compute; reflexivity |]. split; [reflexivity |].
  apply (no_black_once_no_black_ever Demo.cvtColor Demo.goodFeaturesToTrack
           Demo.calcOpticalFlowPyrLK Demo.estimateAffinePartial2D Demo.inv
           Demo.warpAffine 4 3 Demo.circle
           [(Demo.dark_spots, 0); (Demo.dark_spots, 0)] Demo.after_bright).
  vm_compute. reflexivity.
Defined.

Lemma written_frames_have_video_size_witness :
  Forall (has_shape 3 4)
    (out_without_points
       (state_of
          (main_loop Demo.cvtColor Demo.goodFeaturesToTrack
             Demo.calcOpticalFlowPyrLK Demo.estimateAffinePartial2D Demo.inv
             Demo.warpAffine Demo.circle 4 3 main_start Demo.three_frames))).
Proof.
  apply (written_frames_have_video_size Demo.cvtColor Demo.goodFeaturesToTrack
           Demo.calcOpticalFlowPyrLK Demo.estimateAffinePartial2D Demo.inv
           Demo.warpAffine 4 3 Demo.circle Demo.three_frames).
  intros frame M. apply (Demo_warpAffine_shape frame M 4 3).
Defined.

Lemma output_names_of_mp4_witness :
  output_with_points "clips/plume.mp4" = "clips/plume_with_points.mp4"%string /\
  output_without_points "clips/plume.mp4"
    = "clips/plume_without_points.mp4"%string.
Proof. apply (output_names_of_mp4 "clips/plume"). reflexivity. Defined.

(** ** Properties of the reference-image stabiliser *)

Lemma good_matches_not_pairs (matches : list (list Sift.DMatch)) :
  Exists (fun entry => length entry <> 2%nat) matches ->
  Sift.good_matches matches = inl Sift.ValueError.
Proof.
  induction 1 as [entry rest Hlen | entry rest _ IH].
  - destruct entry as [| m [| n [| o entry]]]; simpl in *;
      try reflexivity; contradiction.
  - destruct entry as [| m [| n [| o entry]]]; simpl; try reflexivity.
    rewrite IH. reflexivity.
Qed.

Lemma good_matches_pairs (P : Sift.DMatch -> Prop)
    (matches : list (list Sift.DMatch)) :
  Forall (fun entry => exists m n, entry = [m; n] /\ P m) matches ->
  exists good, Sift.good_matches matches = inr good /\ Forall P good.
Proof.
  induction 1 as [| entry rest (m & n & -> & Hm) _ (good & IH & Hgood)].
  - exists []. split; [reflexivity | constructor].
  - simpl. rewrite IH.
    destruct (SFltb _ _); eexists; split; try reflexivity; auto.
Qed.

Lemma points_of_in_range (kp : list point) (f : Sift.DMatch -> Z)
    (good : list Sift.DMatch) :
  Forall (fun m => 0 <= f m < len kp) good ->
  exists pts, Sift.points_of kp f good = inr pts.
Proof.
  induction 1 as [| m rest Hm _ (pts & IH)]; simpl.
  - eauto.
  - unfold Sift.py_index.
    destruct (Z.ltb_spec (f m) 0); [lia |].
    destruct (Z.leb_spec 0 (f m)); [| lia].
    destruct (Z.ltb_spec (f m) (len kp)); [| lia]. simpl.
    destruct (lookup_lt_is_Some_2 kp (Z.to_nat (f m))) as [pt ->];
      [unfold len in *; lia |].
    rewrite IH. eauto.
Qed.

Section SiftProperties.

Variable descriptors : Type.
Variable cvtColor : image -> gray_image.
Variable detectAndCompute : gray_image -> list point * option descriptors.
Variable knnMatch :
  descriptors -> descriptors -> Z -> option (list (list Sift.DMatch)).
Variable findHomography : list point -> list point -> option mat3.
Variable inv : mat3 -> option mat3.
Variable warpPerspective : image -> mat3 -> Z -> Z -> image.
Variable ref_image : image.
Variable ref_kp : list point.
Variable ref_des : descriptors.

Local Abbreviation process_frame' :=
  (Sift.process_frame descriptors cvtColor detectAndCompute knnMatch
     findHomography inv warpPerspective).
Local Abbreviation sift_loop' :=
  (Sift.main_loop descriptors cvtColor detectAndCompute knnMatch
     findHomography inv warpPerspective ref_image ref_kp ref_des).
Local Abbreviation counts' :=
  (Sift.counts descriptors cvtColor detectAndCompute knnMatch
     findHomography inv warpPerspective ref_image ref_kp ref_des).

(** X15.  [process_frame] returns a raster only from at least ten good matches
    and an invertible homography fitted to their points; the raster is the
    frame warped by the inverse to the size of the reference image. *)
Theorem raster_needs_ten_good_matches (frame warped : image) :
  process_frame' frame ref_image ref_kp ref_des = inr (Some warped) ->
  exists des_frame matches good src_pts dst_pts H H_inv,
    let kp_frame := (detectAndCompute (cvtColor frame)).1 in
    (detectAndCompute (cvtColor frame)).2 = Some des_frame /\
    knnMatch ref_des des_frame 2 = Some matches /\
    Sift.good_matches matches = inr good /\
    10 <= len good /\
    Sift.points_of ref_kp Sift.queryIdx good = inr src_pts /\
    Sift.points_of kp_frame Sift.trainIdx good = inr dst_pts /\
    findHomography src_pts dst_pts = Some H /\
    inv H = Some H_inv /\
    warped = warpPerspective frame H_inv
               (len (default [] (head ref_image))) (len ref_image).
Proof.
  unfold Sift.process_frame.
  destruct (detectAndCompute _) as [kp_frame [des_frame |]]; [| discriminate].
  destruct (knnMatch _ _ _) as [matches |] eqn:Eknn; [| discriminate].
  destruct (Sift.good_matches _) as [e | good] eqn:Egood; [discriminate |].
  destruct (Z.ltb_spec (len good) 10); [discriminate |].
  destruct (Sift.points_of ref_kp _ _) as [e | src_pts] eqn:Esrc;
    [discriminate |].
  destruct (Sift.points_of kp_frame _ _) as [e | dst_pts] eqn:Edst;
    [discriminate |].
  destruct (findHomography _ _) as [H' |] eqn:EH; [| discriminate].
  destruct (inv _) as [H_inv |] eqn:Einv; [| discriminate].
  intros [= <-]. exists des_frame, matches, good, src_pts, dst_pts, H', H_inv.
  simpl. repeat split; auto.
Qed.

(** X16.  A frame whose homography cannot be inverted is skipped: the loop goes
    on with the next file, nothing is written for it and the kept output is
    not touched. *)
Theorem singular_homography_skips_frame
    (st : Sift.State) (fname : string) (frame : image) (key : Z)
    (rest : list (string * option image * Z))
    (des_frame : descriptors) (matches : list (list Sift.DMatch))
    (good : list Sift.DMatch) (src_pts dst_pts : list point) (H : mat3) :
  let kp_frame := (detectAndCompute (cvtColor frame)).1 in
  (detectAndCompute (cvtColor frame)).2 = Some des_frame ->
  knnMatch ref_des des_frame 2 = Some matches ->
  Sift.good_matches matches = inr good ->
  10 <= len good ->
  Sift.points_of ref_kp Sift.queryIdx good = inr src_pts ->
  Sift.points_of kp_frame Sift.trainIdx good = inr dst_pts ->
  findHomography src_pts dst_pts = Some H ->
  inv H = None ->
  process_frame' frame ref_image ref_kp ref_des = inr None /\
  sift_loop' st ((fname, Some frame, key) :: rest) = sift_loop' st rest.
Proof.
  intros kp_frame Hdes Hknn Hgood Hten Hsrc Hdst HH Hinv.
  assert (E : process_frame' frame ref_image ref_kp ref_des = inr None).
  { unfold Sift.process_frame. subst kp_frame.
    destruct (detectAndCompute _) as [kp_frame d]. simpl in *. subst d.
    rewrite Hknn, Hgood.
    destruct (Z.ltb_spec (len good) 10); [lia |].
    rewrite Hsrc, Hdst, HH, Hinv. reflexivity. }
  split; [exact E |]. simpl. rewrite E. reflexivity.
Qed.

(** X17.  Files that cannot be read and frames for which [process_frame] returns
    [None] leave no trace: the loop ends as it does on the stream without
    them. *)
Theorem soft_failures_leave_no_trace
    (frame_files : list (string * option image * Z)) (st : Sift.State) :
  sift_loop' st frame_files = sift_loop' st (List.filter counts' frame_files).
Proof.
  revert st.
  induction frame_files as [| [[fname loaded] key] rest IH]; intros st.
  - reflexivity.
  - cbn [List.filter]. unfold Sift.counts at 1. cbn [fst snd].
    destruct loaded as [frame |]; [| simpl; apply IH].
    destruct (process_frame' frame ref_image ref_kp ref_des)
      as [e | [warped |]] eqn:E; simpl; rewrite E.
    + reflexivity.
    + destruct (Z.land key 255 =? 27); [reflexivity | apply IH].
    + apply IH.
Qed.

(** X18.  An entry of the matcher's result that is not a pair, as for a frame
    with a single descriptor, raises [ValueError] in the comprehension; it
    is not caught and ends the loop. *)
Theorem single_neighbour_raises
    (st : Sift.State) (fname : string) (frame : image) (key : Z)
    (rest : list (string * option image * Z))
    (des_frame : descriptors) (matches : list (list Sift.DMatch)) :
  (detectAndCompute (cvtColor frame)).2 = Some des_frame ->
  knnMatch ref_des des_frame 2 = Some matches ->
  Exists (fun entry => length entry <> 2%nat) matches ->
  sift_loop' st ((fname, Some frame, key) :: rest)
  = Sift.Raised Sift.ValueError st.
Proof.
  intros Hdes Hknn Hbad. simpl. unfold Sift.process_frame.
  destruct (detectAndCompute _) as [kp_frame d]. simpl in *. subst d.
  rewrite Hknn, (good_matches_not_pairs _ Hbad). reflexivity.
Qed.

(** X19.  When the matcher returns pairs whose indices are within the two lists
    of key points, no failure inside a frame ends the loop: it reaches the
    end of the files or ESC. *)
Theorem loop_survives_every_frame
    (frame_files : list (string * option image * Z)) (st : Sift.State) :
  (forall frame des_frame matches,
     (detectAndCompute (cvtColor frame)).2 = Some des_frame ->
     knnMatch ref_des des_frame 2 = Some matches ->
     Forall (fun entry =>
               exists m n, entry = [m; n] /\
                 0 <= Sift.queryIdx m < len ref_kp /\
                 0 <= Sift.trainIdx m
                   < len (detectAndCompute (cvtColor frame)).1)
       matches) ->
  exists final, sift_loop' st frame_files = Sift.Done final.
Proof.
  intros Hcontract. revert st.
  induction frame_files as [| [[fname loaded] key] rest IH]; intros st; simpl.
  - eauto.
  - destruct loaded as [frame |]; [| apply IH].
    assert (E : exists r, process_frame' frame ref_image ref_kp ref_des = inr r).
    { unfold Sift.process_frame. specialize (Hcontract frame).
      destruct (detectAndCompute _) as [kp_frame [des_frame |]]; [| eauto].
      destruct (knnMatch _ _ _) as [matches |] eqn:Eknn; [| eauto].
      specialize (Hcontract des_frame matches eq_refl Eknn). simpl in *.
      destruct (good_matches_pairs _ _ Hcontract) as (good & -> & Hgood).
      destruct (len good <? 10); [eauto |].
      destruct (points_of_in_range ref_kp Sift.queryIdx good) as [src ->].
      { eapply Forall_impl; [exact Hgood |]. simpl. tauto. }
      destruct (points_of_in_range kp_frame Sift.trainIdx good) as [dst ->].
      { eapply Forall_impl; [exact Hgood |]. simpl. tauto. }
      destruct (findHomography _ _); [| eauto].
      destruct (inv _); eauto. }
    destruct E as [[warped |] ->].
    + destruct (Z.land key 255 =? 27); [eauto | apply IH].
    + apply IH.
Qed.

End SiftProperties.

(** ** The reference-image stabiliser at concrete files *)

Lemma SiftDemo_clamp_range (n : nat) (i : Z) :
  (n <> 0)%nat -> 0 <= SiftDemo.clamp n i < Z.of_nat n.
Proof. unfold SiftDemo.clamp. lia. Defined.

Lemma SiftDemo_matches_in_range
    (frame : image) (des_frame : SiftDemo.descriptors)
    (matches : list (list Sift.DMatch)) :
  (SiftDemo.detectAndCompute (Demo.cvtColor frame)).2 = Some des_frame ->
  SiftDemo.knnMatch SiftDemo.ref_des des_frame 2 = Some matches ->
  Forall (fun entry =>
            exists m n, entry = [m; n] /\
              0 <= Sift.queryIdx m < len SiftDemo.ref_kp /\
              0 <= Sift.trainIdx m
                < len (SiftDemo.detectAndCompute (Demo.cvtColor frame)).1)
    matches.
Proof.
  unfold SiftDemo.detectAndCompute. cbn [fst snd].
  set (kp := SiftDemo.key_points (Demo.cvtColor frame)).
  destruct (drop 1 (Demo.cvtColor frame)) as [| row rows]; [discriminate |].
  intros [= <-]. generalize (row :: rows). intros rs.
  unfold SiftDemo.knnMatch. cbn [fst snd].
  change (length SiftDemo.ref_kp =? 0)%nat with false. cbn [orb].
  destruct (Nat.eqb_spec (length kp) 0) as [| Hkp]; [discriminate |].
  intros [= <-].
  induction rs as [| r rs IH]; constructor; [| exact IH].
  unfold SiftDemo.entry.
  eexists _, _. split; [reflexivity |]. cbn [Sift.queryIdx Sift.trainIdx].
  split.
  - apply (SiftDemo_clamp_range 10). discriminate.
  - apply SiftDemo_clamp_range, Hkp.
Defined.

Lemma raster_needs_ten_good_matches_witness :
  exists good,
    Sift.good_matches (SiftDemo.matches_of SiftDemo.aligned) = inr good /\
    10 <= len good.
Proof.
  destruct (raster_needs_ten_good_matches SiftDemo.descriptors Demo.cvtColor
              SiftDemo.detectAndCompute SiftDemo.knnMatch
              SiftDemo.findHomography Demo.inv SiftDemo.warpPerspective
              SiftDemo.ref_image SiftDemo.ref_kp SiftDemo.ref_des
              SiftDemo.aligned
              (Demo.warpAffine SiftDemo.aligned (top_rows eye3) 4 3))
    as (des & matches & good & _ & _ & _ & _ & Hdes & Hknn & Hgood & Hten & _).
  - vm_compute. reflexivity.
  - exists good. split; [| exact Hten].
    unfold SiftDemo.matches_of, SiftDemo.des_of.
    rewrite Hdes. simpl. rewrite Hknn. exact Hgood.
Defined.

Lemma singular_homography_skips_frame_witness :
  SiftDemo.process_frame SiftDemo.shifted = inr None /\
  SiftDemo.main_loop Sift.start
    [("c.png"%string, Some SiftDemo.shifted, 0);
     ("e.png"%string, Some SiftDemo.aligned, 0)]
  = SiftDemo.main_loop Sift.start
      [("e.png"%string, Some SiftDemo.aligned, 0)].
Proof.
  apply (singular_homography_skips_frame SiftDemo.descriptors Demo.cvtColor
           SiftDemo.detectAndCompute SiftDemo.knnMatch
           SiftDemo.findHomography Demo.inv SiftDemo.warpPerspective
           SiftDemo.ref_image SiftDemo.ref_kp SiftDemo.ref_des
           Sift.start "c.png" SiftDemo.shifted 0
           [("e.png"%string, Some SiftDemo.aligned, 0)]
           (SiftDemo.des_of SiftDemo.shifted)
           (SiftDemo.matches_of SiftDemo.shifted)
           (SiftDemo.good_of SiftDemo.shifted)
           (SiftDemo.src_of SiftDemo.shifted)
           (SiftDemo.dst_of SiftDemo.shifted)
           (M3 (V3 F32.zero F32.zero F32.zero)
               (V3 F32.zero F32.zero F32.zero) affine_bottom)).
  - vm_compute. reflexivity.
  - vm_compute. reflexivity.
  - vm_compute. reflexivity.
  - vm_compute. discriminate.
  - vm_compute. reflexivity.
  - vm_compute. reflexivity.
  - vm_compute. reflexivity.
  - vm_compute. reflexivity.
Defined.

Lemma single_neighbour_raises_witness :
  SiftDemo.main_loop_one_neighbour Sift.start SiftDemo.files
  = Sift.Raised Sift.ValueError Sift.start.
Proof.
  apply (single_neighbour_raises SiftDemo.descriptors Demo.cvtColor
           SiftDemo.detectAndCompute SiftDemo.knnMatch_one_neighbour
           SiftDemo.findHomography Demo.inv SiftDemo.warpPerspective
           SiftDemo.ref_image SiftDemo.ref_kp SiftDemo.ref_des
           Sift.start "a.png" SiftDemo.aligned 0 (tail SiftDemo.files)
           (SiftDemo.des_of SiftDemo.aligned)
           (map (fun _ => [Sift.mkDMatch 0 0 (F64.of_int 1)])
              (SiftDemo.des_of SiftDemo.aligned).2)).
  - vm_compute. reflexivity.
  - reflexivity.
  - apply Exists_cons_hd. simpl. discriminate.
Defined.

Lemma loop_survives_every_frame_witness :
  exists final, SiftDemo.main_loop Sift.start SiftDemo.files = Sift.Done final.
Proof.
  apply (loop_survives_every_frame SiftDemo.descriptors Demo.cvtColor
           SiftDemo.detectAndCompute SiftDemo.knnMatch
           SiftDemo.findHomography Demo.inv SiftDemo.warpPerspective
           SiftDemo.ref_image SiftDemo.ref_kp SiftDemo.ref_des
           SiftDemo.files Sift.start).
  exact SiftDemo_matches_in_range.
Defined.
